(** * httpmq: the message-dispatch core of the data plane

    A shallow embedding of the inflight-message tracker
    ([jetStreamInflightMsgProcessorImpl]), of the JetStream publisher, of the
    push subscriber and of the push message dispatcher, together with the
    properties their design document states about them.

    Conventions of the embedding.
    - A Go [error] is identified with its message; the [nil] error is [None].
    - A Go [map[K]*V] whose pointers live only inside the map is a [gmap K V];
      an update through such a pointer is an update of the map entry.
    - [uint64] sequence numbers are [N]; the code only compares and prints
      them, so no wrap-around arises.
    - Calls into the broker client (nats.go) and into components whose code
      is outside this development are answered by an oracle that is given
      the history of calls made so far; logging is left out. *)

From Stdlib Require Import NArith DecimalString List Lia.
From stdpp Require Import base option strings gmap list.

Open Scope string_scope.
Open Scope list_scope.
Open Scope nat_scope.

(** Go errors, by message. *)
Definition error := string.

(** [fmt]'s [%d] verb at a [uint64]. *)
Definition fmt_d (n : N) : string := NilEmpty.string_of_uint (N.to_uint n).

(* ===================================================================== *)
(** ** The inflight-message tracker *)
(* ===================================================================== *)

Module Inflight.

(** [nats.SequencePair]. *)
Record SequencePair := mkSequencePair {
  seqConsumer : N;
  seqStream : N
}.

(** [nats.MsgMetadata], the fields the tracker reads. *)
Record MsgMetadata := mkMsgMetadata {
  mdSequence : SequencePair;
  mdStream : string;
  mdConsumer : string
}.

(** [nats.Msg]. [msgMetadata] is what [msg.Metadata()] returns: the
    metadata, or the client library's error for a message that carries
    none. *)
Record Msg := mkMsg {
  msgSubject : string;
  msgData : string;
  msgMetadata : error + MsgMetadata
}.

(** Modelled from the spec: [AckIndication] is declared outside the
    sources at hand. The design document gives it as stream, consumer and
    the two sequence numbers; [ProcessMsgACK] reads [Stream], [Consumer]
    and [SeqNum.Stream]. *)
Record AckIndication := mkAckIndication {
  ackStream : string;
  ackConsumer : string;
  ackSeqNum : SequencePair
}.

(** [perConsumerInflightMessages]. *)
Record perConsumerInflightMessages := mkPerConsumer {
  inflight : gmap N Msg
}.

(** [perStreamInflightMessages]. *)
Record perStreamInflightMessages := mkPerStream {
  consumers : gmap string perConsumerInflightMessages
}.

(** [jetStreamInflightMsgProcessorImpl], less its logger and its task
    processor. *)
Record jetStreamInflightMsgProcessorImpl := mkProcessor {
  subject : string;
  consumer : string;
  inflightPerStream : gmap string perStreamInflightMessages
}.

(** The instance [getJetStreamInflightMsgProcessor] builds: bound to its
    consumer, with nothing on record. *)
Definition getJetStreamInflightMsgProcessor (subj cons : string)
  : jetStreamInflightMsgProcessorImpl :=
  {| subject := subj; consumer := cons; inflightPerStream := ∅ |}.

(** The tracker with its map replaced; the binding to subject and consumer
    is never written after construction. *)
Definition withInflightPerStream
    (c : jetStreamInflightMsgProcessorImpl)
    (m : gmap string perStreamInflightMessages)
  : jetStreamInflightMsgProcessorImpl :=
  {| subject := subject c; consumer := consumer c; inflightPerStream := m |}.

(** The entry of the three-level map under (stream, consumer, sequence). *)
Definition lookupInflight (c : jetStreamInflightMsgProcessorImpl)
    (stream cons : string) (seq : N) : option Msg :=
  ps ← inflightPerStream c !! stream;
  pc ← consumers ps !! cons;
  inflight pc !! seq.

(** [ProcessInflightMessage]: the returned error and the tracker after the
    call. *)
Definition ProcessInflightMessage
    (c : jetStreamInflightMsgProcessorImpl) (msg : Msg)
  : option error * jetStreamInflightMsgProcessorImpl :=
  match msgMetadata msg with
  | inl err => (Some err, c)
  | inr meta =>
    if decide (consumer c ≠ mdConsumer meta) then
      (Some ("message expected for " +:+ consumer c +:+
             ", but meta says " +:+ mdConsumer meta), c)
    else
      let perStreamRecords :=
        match inflightPerStream c !! mdStream meta with
        | Some r => r
        | None => {| consumers := ∅ |}
        end in
      let perConsumerRecords :=
        match consumers perStreamRecords !! consumer c with
        | Some r => r
        | None => {| inflight := ∅ |}
        end in
      let perConsumerRecords' :=
        {| inflight :=
             <[seqStream (mdSequence meta) := msg]>
               (inflight perConsumerRecords) |} in
      let perStreamRecords' :=
        {| consumers :=
             <[consumer c := perConsumerRecords']>
               (consumers perStreamRecords) |} in
      (None,
       withInflightPerStream c
         (<[mdStream meta := perStreamRecords']> (inflightPerStream c)))
  end.

(** The broker's answers to [msg.AckSync()]: given the messages on which
    [AckSync] was called so far (oldest first) and the message, the error
    it returns. *)
Definition AckSyncOracle := list Msg → Msg → option error.

(** [ProcessMsgACK]: the returned error, the tracker after the call, and
    the [AckSync] calls made so far. *)
Definition ProcessMsgACK (AckSync : AckSyncOracle)
    (c : jetStreamInflightMsgProcessorImpl) (acked : list Msg)
    (ack : AckIndication)
  : option error * jetStreamInflightMsgProcessorImpl * list Msg :=
  match inflightPerStream c !! ackStream ack with
  | None =>
    (Some ("no records related to stream " +:+ ackStream ack), c, acked)
  | Some perStreamRecords =>
    match consumers perStreamRecords !! ackConsumer ack with
    | None =>
      (Some ("no records related to consumer " +:+ ackConsumer ack +:+
             " on stream " +:+ ackStream ack), c, acked)
    | Some perConsumerRecords =>
      match inflight perConsumerRecords !! seqStream (ackSeqNum ack) with
      | None =>
        (Some ("no records related message [" +:+
               fmt_d (seqStream (ackSeqNum ack)) +:+ "] for " +:+
               ackConsumer ack +:+ "@" +:+ ackStream ack), c, acked)
      | Some msg =>
        match AckSync acked msg with
        | Some err => (Some err, c, acked ++ [msg])
        | None =>
          let perConsumerRecords' :=
            {| inflight :=
                 delete (seqStream (ackSeqNum ack))
                   (inflight perConsumerRecords) |} in
          let perStreamRecords' :=
            {| consumers :=
                 <[ackConsumer ack := perConsumerRecords']>
                   (consumers perStreamRecords) |} in
          (None,
           withInflightPerStream c
             (<[ackStream ack := perStreamRecords']> (inflightPerStream c)),
           acked ++ [msg])
        end
      end
    end
  end.

(** The tracker together with the trace of [AckSync] calls. *)
Definition World : Type := jetStreamInflightMsgProcessorImpl * list Msg.

(** One task handled by the tracker's task processor. *)
Inductive step (AckSync : AckSyncOracle) : World → World → Prop :=
| step_record c acked msg :
    step AckSync (c, acked) ((ProcessInflightMessage c msg).2, acked)
| step_ack c acked ack :
    step AckSync (c, acked)
      ((ProcessMsgACK AckSync c acked ack).1.2,
       (ProcessMsgACK AckSync c acked ack).2).

(** The states the tracker built for [cons] can be in. *)
Inductive reachable (AckSync : AckSyncOracle) (subj cons : string)
  : World → Prop :=
| reachable_init :
    reachable AckSync subj cons
      (getJetStreamInflightMsgProcessor subj cons, [])
| reachable_step w w' :
    reachable AckSync subj cons w → step AckSync w w' →
    reachable AckSync subj cons w'.

(** Every per-stream record holds at most one consumer, the one the
    tracker is bound to. *)
Definition consumersBound (cons : string)
    (c : jetStreamInflightMsgProcessorImpl) : Prop :=
  consumer c = cons ∧
  ∀ stream ps, inflightPerStream c !! stream = Some ps →
    size (consumers ps) ≤ 1 ∧
    ∀ k, is_Some (consumers ps !! k) → k = cons.

End Inflight.

Import Inflight.

(* ===================================================================== *)
(** ** Message transport: publisher, push subscriber, dispatcher *)
(* ===================================================================== *)

Module Transport.

(** *** The JetStream publisher *)

(** [nats.PubAck], the fields [Publish] logs. *)
Record PubAck := mkPubAck {
  paStream : string;
  paSequence : N
}.

(** The case of [Publish]'s [select] that fires, with what it received.
    [ok] is the second result of the channel receive: [false] when the
    channel was closed. *)
Inductive SelectOutcome :=
| RecvOk (goodSig : PubAck) (ok : bool)
| RecvErr (txErr : option error) (ok : bool)
| CtxDone (ctxErr : error).

(** A [nats.PubAckFuture], by identity. *)
Definition PubAckFuture := nat.

(** What surrounds one call of [Publish]: the result of
    [common.UpdateLogTags], the result of [JetStream().PublishAsync], and
    the case that fires when the future and the context are awaited. *)
Record PublishEnv := mkPublishEnv {
  pubUpdateLogTags : option error;
  PublishAsync : string → string → error + PubAckFuture;
  await : PubAckFuture → SelectOutcome
}.

(** [jetStreamPublisherImpl.Publish]. *)
Definition Publish (env : PublishEnv) (subject msg : string)
  : option error :=
  match pubUpdateLogTags env with
  | Some err => Some err
  | None =>
    match PublishAsync env subject msg with
    | inl err => Some err
    | inr ack =>
      match await env ack with
      | RecvOk goodSig ok =>
        if negb ok then
          Some "reading nats.PubAckFuture OK channel failure"
        else None
      | RecvErr txErr ok =>
        if negb ok then
          Some "reading nats.PubAckFuture error channel failure"
        else txErr
      | CtxDone ctxErr => Some ctxErr
      end
    end
  end.

(** The case that fired did not find its channel closed. *)
Definition chanOpen (o : SelectOutcome) : bool :=
  match o with
  | RecvOk _ ok => ok
  | RecvErr _ ok => ok
  | CtxDone _ => true
  end.

(** The three outcomes the design document lists for a call of [Publish]
    that returned [r]: the broker acknowledged and [r] is nil, the broker
    refused and [r] is its error, or the context was cancelled and [r] is
    the context's error. *)
Inductive ReportedOutcome (env : PublishEnv) (subject msg : string)
    (r : option error) : Prop :=
| outcome_ack ack goodSig :
    PublishAsync env subject msg = inr ack →
    await env ack = RecvOk goodSig true → r = None →
    ReportedOutcome env subject msg r
| outcome_nack ack txErr :
    PublishAsync env subject msg = inr ack →
    await env ack = RecvErr txErr true → r = txErr →
    ReportedOutcome env subject msg r
| outcome_cancelled ack ctxErr :
    PublishAsync env subject msg = inr ack →
    await env ack = CtxDone ctxErr → r = Some ctxErr →
    ReportedOutcome env subject msg r.

(** *** Tasks of the inflight tracker and calls of the dispatcher *)

(** The requests the tracker submits to its task processor
    ([jsInflightCtrlRecordNewMsg] and [jsInflightCtrlRecordACK], less the
    time stamp and the result callback). *)
Inductive Task :=
| jsInflightCtrlRecordNewMsg (blocking : bool) (message : Msg)
| jsInflightCtrlRecordACK (blocking : bool) (ack : AckIndication).

(** The calls the dispatcher and the tracker's front end make on their
    collaborators, in the order they are made. *)
Inductive Event :=
| EvStartEventLoop
| EvSubscribeForACKs
| EvUpdateLogTags
| EvSpawnReader
| EvMsgOutput (msg : Msg)
| EvSubmit (task : Task).

(** The first case to fire when a blocking caller waits for its result. *)
Inductive WaitOutcome :=
| ResultRecv (result : option error) (ok : bool)
| WaitCtxDone (ctxErr : error).

(** The collaborators whose code lies outside: each answers from the
    calls made so far. *)
Record Env := mkEnv {
  StartEventLoop : list Event → option error;
  SubscribeForACKs : list Event → option error;
  UpdateLogTags : list Event → option error;
  Submit : list Event → Task → option error;
  awaitResult : list Event → WaitOutcome
}.

(** The client sink handed to [Start]: its result for a message, given
    the calls made so far. *)
Definition Sink := list Event → Msg → option error.

(** [ForwardMessageHandlerCB], as the subscriber stores it. *)
Definition ForwardMessageHandlerCB :=
  Msg → list Event → option error * list Event.

(** [AlertOnErrorCB]: the calls an alert makes. *)
Definition AlertOnErrorCB := error → list Event.

(** [jetStreamInflightMsgProcessorImpl.RecordInflightMessage]. *)
Definition RecordInflightMessage (env : Env) (msg : Msg) (blocking : bool)
    (trace : list Event) : option error * list Event :=
  let request := jsInflightCtrlRecordNewMsg blocking msg in
  let trace' := trace ++ [EvSubmit request] in
  match Submit env trace request with
  | Some err => (Some err, trace')
  | None =>
    if negb blocking then (None, trace')
    else
      match awaitResult env trace' with
      | ResultRecv result ok =>
        if negb ok then
          (Some "response to new inflight message is invalid", trace')
        else (result, trace')
      | WaitCtxDone ctxErr => (Some ctxErr, trace')
      end
  end.

(** [jetStreamInflightMsgProcessorImpl.HandlerMsgACK]. *)
Definition HandlerMsgACK (env : Env) (ack : AckIndication) (blocking : bool)
    (trace : list Event) : option error * list Event :=
  let request := jsInflightCtrlRecordACK blocking ack in
  let trace' := trace ++ [EvSubmit request] in
  match Submit env trace request with
  | Some err => (Some err, trace')
  | None =>
    if negb blocking then (None, trace')
    else
      match awaitResult env trace' with
      | ResultRecv result ok =>
        if negb ok then (Some "response to msg ACK is invalid", trace')
        else (result, trace')
      | WaitCtxDone ctxErr => (Some ctxErr, trace')
      end
  end.

(** *** The push subscriber *)

(** [jetStreamPushSubscriberImpl], the fields [StartReading] writes. *)
Record jetStreamPushSubscriberImpl := mkSubscriber {
  reading : bool;
  forwardMsg : option ForwardMessageHandlerCB;
  errorCB : option AlertOnErrorCB
}.

(** [jetStreamPushSubscriberImpl.StartReading], up to the start of the
    reading goroutine. *)
Definition StartReading (env : Env) (r : jetStreamPushSubscriberImpl)
    (forwardCB : ForwardMessageHandlerCB) (alertCB : AlertOnErrorCB)
    (trace : list Event)
  : option error * jetStreamPushSubscriberImpl * list Event :=
  let trace' := trace ++ [EvUpdateLogTags] in
  match UpdateLogTags env trace with
  | Some err => (Some err, r, trace')
  | None =>
    if reading r then (Some "already reading", r, trace')
    else
      (None,
       {| reading := true;
          forwardMsg := Some forwardCB;
          errorCB := Some alertCB |},
       trace' ++ [EvSpawnReader])
  end.

(** *** The push message dispatcher *)

(** [pushMessageDispatcher], the fields [Start] reads and writes. *)
Record pushMessageDispatcher := mkDispatcher {
  started : bool;
  subscriber : jetStreamPushSubscriberImpl
}.

(** The callback [Start] hands to the ACK receiver. *)
Definition ackCB (env : Env) (ai : AckIndication) (trace : list Event)
  : list Event :=
  (HandlerMsgACK env ai false trace).2.

(** The callback [Start] hands to the subscriber. *)
Definition forwardCB (env : Env) (msgOutput : Sink)
  : ForwardMessageHandlerCB :=
  λ msg trace,
    let trace1 := trace ++ [EvMsgOutput msg] in
    match msgOutput trace msg with
    | Some err => (Some err, trace1)
    | None =>
      match RecordInflightMessage env msg false trace1 with
      | (Some err, trace2) => (Some err, trace2)
      | (None, trace2) => (None, trace2)
      end
    end.

(** [pushMessageDispatcher.Start]. The mutex makes the call atomic. *)
Definition Start (env : Env) (d : pushMessageDispatcher)
    (msgOutput : Sink) (alertCB : AlertOnErrorCB) (trace : list Event)
  : option error * pushMessageDispatcher * list Event :=
  if started d then (Some "already started", d, trace)
  else
    let trace1 := trace ++ [EvStartEventLoop] in
    match StartEventLoop env trace with
    | Some err => (Some err, d, trace1)
    | None =>
      let trace2 := trace1 ++ [EvSubscribeForACKs] in
      match SubscribeForACKs env trace1 with
      | Some err => (Some err, d, trace2)
      | None =>
        match StartReading env (subscriber d) (forwardCB env msgOutput)
                alertCB trace2 with
        | (Some err, r, trace3) =>
          (Some err, {| started := started d; subscriber := r |}, trace3)
        | (None, r, trace3) =>
          (None, {| started := true; subscriber := r |}, trace3)
        end
      end
    end.

End Transport.

(* ===================================================================== *)
(** ** The interval timer *)
(* ===================================================================== *)

Module Timer.

(** Modelled from the spec: the interval timer ([GetIntervalTimerInstance]
    and its [Start]) is exercised by [TestIntervalTimerOneShot] but its
    code is not part of this development. The design document says that
    [Start] cancels any prior schedule and then starts a ticker that waits
    [period], invokes the callback, and stops if [fire_once] or else
    repeats. Time is a logical clock counted in ticks (milliseconds in the
    test). *)
Record Schedule := mkSchedule {
  period : nat;
  fire_once : bool;
  due : nat
}.

(** Modelled from the spec: the timer's state. [invoked] lists the clock
    values at which the callback ran, oldest first. *)
Record IntervalTimer := mkTimer {
  now : nat;
  schedule : option Schedule;
  invoked : list nat
}.

(** Modelled from the spec: [GetIntervalTimerInstance]. *)
Definition GetIntervalTimerInstance : IntervalTimer :=
  {| now := 0; schedule := None; invoked := [] |}.

(** Modelled from the spec: [Start(period, cb, fire_once)] replaces the
    schedule, if any, by one that is due [period] ticks from now. *)
Definition Start (p : nat) (once : bool) (t : IntervalTimer)
  : IntervalTimer :=
  {| now := now t;
     schedule := Some {| period := p; fire_once := once;
                         due := now t + p |};
     invoked := invoked t |}.

(** Modelled from the spec: one tick of the clock. A schedule that is due
    invokes the callback; a one-shot schedule then stops, a periodic one
    waits [period] again. *)
Definition tick (t : IntervalTimer) : IntervalTimer :=
  let now' := S (now t) in
  match schedule t with
  | None => {| now := now'; schedule := None; invoked := invoked t |}
  | Some s =>
    if due s <=? now' then
      {| now := now';
         schedule :=
           if fire_once s then None
           else Some {| period := period s; fire_once := false;
                        due := now' + period s |};
         invoked := invoked t ++ [now'] |}
    else {| now := now'; schedule := Some s; invoked := invoked t |}
  end.

(** [time.Sleep] of [n] ticks, seen from the timer. *)
Definition sleep (n : nat) (t : IntervalTimer) : IntervalTimer :=
  Nat.iter n tick t.

(** The counter of [TestIntervalTimerOneShot]: one increment for each
    invocation of the callback. *)
Definition value (t : IntervalTimer) : nat := length (invoked t).

End Timer.

(* ===================================================================== *)
(** ** The tracker's task handlers and the entries it holds *)
(* ===================================================================== *)

Module Handlers.

Import Transport.

(** What the task processor hands to a handler ([param interface{}]): one
    of the tracker's requests, or a value of another type, given by the
    name [reflect.TypeOf] prints for it. *)
Inductive Param :=
| ParamTask (task : Task)
| ParamOther (typeName : string).

(** [reflect.TypeOf(param)] under [%s]. *)
Definition typeOf (param : Param) : string :=
  match param with
  | ParamTask (jsInflightCtrlRecordNewMsg _ _) =>
    "dataplane.jsInflightCtrlRecordNewMsg"
  | ParamTask (jsInflightCtrlRecordACK _ _) =>
    "dataplane.jsInflightCtrlRecordACK"
  | ParamOther typeName => typeName
  end.

(** How a call of a handler ends. The result callback of a request sends
    the error on the request's unbuffered channel: the send goes through
    when the caller still waits for the result, and never does once the
    caller has left on [ctx.Done()]; the handler then does not return.
    [calledBack] lists the errors the callback delivered; [err] and
    [state] are the error of the request and what the handler left
    behind, whether it returned or not. *)
Inductive HandlerRun (S : Type) :=
| HandlerReturned (err : option error) (state : S)
    (calledBack : list (option error))
| HandlerBlocked (err : option error) (state : S).

Arguments HandlerReturned {S} err state calledBack.
Arguments HandlerBlocked {S} err state.

Definition runError {S} (run : HandlerRun S) : option error :=
  match run with
  | HandlerReturned err _ _ => err
  | HandlerBlocked err _ => err
  end.

Definition runState {S} (run : HandlerRun S) : S :=
  match run with
  | HandlerReturned _ state _ => state
  | HandlerBlocked _ state => state
  end.

Definition runCalledBack {S} (run : HandlerRun S) : list (option error) :=
  match run with
  | HandlerReturned _ _ calledBack => calledBack
  | HandlerBlocked _ _ => []
  end.

Definition runReturned {S} (run : HandlerRun S) : bool :=
  match run with
  | HandlerReturned _ _ _ => true
  | HandlerBlocked _ _ => false
  end.

(** [request.resultCB(err)] and the [return err] after it, for a request
    in blocking mode whose caller is or is not listening any more. *)
Definition callBackAndReturn {S} (callerListening : bool)
    (err : option error) (state : S) : HandlerRun S :=
  if callerListening then HandlerReturned err state [err]
  else HandlerBlocked err state.

(** [processInflightMessage]. [callerListening] says whether the caller of
    a blocking request still waits on the request's channel when the
    handler sends the result. *)
Definition processInflightMessage
    (c : jetStreamInflightMsgProcessorImpl) (param : Param)
    (callerListening : bool)
  : HandlerRun jetStreamInflightMsgProcessorImpl :=
  match param with
  | ParamTask (jsInflightCtrlRecordNewMsg blocking message) =>
    let '(err, c') := ProcessInflightMessage c message in
    if blocking then callBackAndReturn callerListening err c'
    else HandlerReturned err c' []
  | _ =>
    HandlerReturned
      (Some ("can not process unknown type " +:+ typeOf param +:+
             " for record inflight message")) c []
  end.

(** [processMsgACK]; the state is the tracker with the [AckSync] calls
    made so far. *)
Definition processMsgACK (AckSync : AckSyncOracle)
    (c : jetStreamInflightMsgProcessorImpl) (acked : list Msg)
    (param : Param) (callerListening : bool)
  : HandlerRun (jetStreamInflightMsgProcessorImpl * list Msg) :=
  match param with
  | ParamTask (jsInflightCtrlRecordACK blocking ack) =>
    let '(err, c', acked') := ProcessMsgACK AckSync c acked ack in
    if blocking then callBackAndReturn callerListening err (c', acked')
    else HandlerReturned err (c', acked') []
  | _ =>
    HandlerReturned
      (Some ("can not process unknown type " +:+ typeOf param +:+
             " for handle new ACK message")) (c, acked) []
  end.

(** The number of messages on record for a consumer of a stream. *)
Definition pendingCount (c : jetStreamInflightMsgProcessorImpl)
    (stream cons : string) : nat :=
  match inflightPerStream c !! stream with
  | None => 0
  | Some ps =>
    match consumers ps !! cons with
    | None => 0
    | Some pc => size (inflight pc)
    end
  end.

(** Every message on record sits under the key its own metadata gives,
    and that metadata names the consumer [cons]. *)
Definition wellKeyed (cons : string)
    (c : jetStreamInflightMsgProcessorImpl) : Prop :=
  ∀ stream k seq msg,
    lookupInflight c stream k seq = Some msg →
    ∃ meta,
      msgMetadata msg = inr meta ∧
      mdStream meta = stream ∧ mdConsumer meta = k ∧
      seqStream (mdSequence meta) = seq ∧ k = cons.

(** The message carries metadata that names the consumer [cons]. *)
Definition deliveredTo (cons : string) (msg : Msg) : Prop :=
  ∃ meta, msgMetadata msg = inr meta ∧ mdConsumer meta = cons.

End Handlers.

(* ===================================================================== *)
(** ** The subscriber's reading goroutine and repeated starts *)
(* ===================================================================== *)

Module Reader.

Import Transport.

(** What the reading goroutine of [StartReading] does, step by step. *)
Inductive ReaderAction :=
| ActNextMsg
| ActForward (msg : Msg)
| ActAlert (err : error)
| ActDrain
| ActUnsubscribe
| ActDone.

(** The [for] loop of the goroutine. [deliveries] are the results of
    [NextMsgWithContext] that came without an error, in order ([None] for
    a nil message), and [readErr] is the first error it returns: a
    cancelled context ends every run this way. The loop threads the calls
    made on the collaborators ([trace]) and adds its own steps to [log]. *)
Fixpoint readLoop (forwardMsg : ForwardMessageHandlerCB)
    (errorCB : AlertOnErrorCB) (deliveries : list (option Msg))
    (readErr : error) (trace : list Event) (log : list ReaderAction)
  : list Event * list ReaderAction :=
  match deliveries with
  | [] => (trace ++ errorCB readErr, log ++ [ActNextMsg; ActAlert readErr])
  | None :: rest =>
    readLoop forwardMsg errorCB rest readErr trace (log ++ [ActNextMsg])
  | Some newMsg :: rest =>
    match forwardMsg newMsg trace with
    | (Some err, trace') =>
      readLoop forwardMsg errorCB rest readErr (trace' ++ errorCB err)
        (log ++ [ActNextMsg; ActForward newMsg; ActAlert err])
    | (None, trace') =>
      readLoop forwardMsg errorCB rest readErr trace'
        (log ++ [ActNextMsg; ActForward newMsg])
    end
  end.

(** The goroutine: the loop, then the deferred calls in the order Go runs
    them, last deferred first: [Drain], [Unsubscribe], [wg.Done]. What
    [Drain] and [Unsubscribe] return is only logged. *)
Definition readerGoroutine (forwardMsg : ForwardMessageHandlerCB)
    (errorCB : AlertOnErrorCB) (deliveries : list (option Msg))
    (readErr : error) (trace : list Event)
  : list Event * list ReaderAction :=
  let '(trace', log) :=
    readLoop forwardMsg errorCB deliveries readErr trace [] in
  (trace', log ++ [ActDrain; ActUnsubscribe; ActDone]).

(** The messages the loop forwarded, in order. *)
Definition forwarded (log : list ReaderAction) : list Msg :=
  omap (λ a, match a with ActForward msg => Some msg | _ => None end) log.

(** The number of times the loop asked for the next message. *)
Definition reads (log : list ReaderAction) : nat :=
  length (List.filter
            (λ a, match a with ActNextMsg => true | _ => false end) log).

(** The calls the dispatcher's forward callback may leave behind for a run
    of messages: for each, the call of the client sink, followed or not by
    the submission of its record in non-blocking mode. *)
Inductive Forwarded : list Msg → list Event → Prop :=
| Forwarded_nil : Forwarded [] []
| Forwarded_sink_only msg msgs evs :
    Forwarded msgs evs →
    Forwarded (msg :: msgs) (EvMsgOutput msg :: evs)
| Forwarded_recorded msg msgs evs :
    Forwarded msgs evs →
    Forwarded (msg :: msgs)
      (EvMsgOutput msg
         :: EvSubmit (jsInflightCtrlRecordNewMsg false msg) :: evs).

(** One call of the dispatcher's [Start]: the collaborators as they answer
    during it, and its two arguments. *)
Record StartCall := mkStartCall {
  callEnv : Env;
  callSink : Sink;
  callAlert : AlertOnErrorCB
}.

(** [Start] called time after time on one dispatcher: the results in
    order, the dispatcher and the trace at the end. *)
Fixpoint StartMany (calls : list StartCall) (d : pushMessageDispatcher)
    (trace : list Event)
  : list (option error) * pushMessageDispatcher * list Event :=
  match calls with
  | [] => ([], d, trace)
  | call :: rest =>
    let '(r, d', trace') :=
      Start (callEnv call) d (callSink call) (callAlert call) trace in
    let '(rs, d'', trace'') := StartMany rest d' trace' in
    (r :: rs, d'', trace'')
  end.

(** The number of reading goroutines started in a trace. *)
Definition spawns (trace : list Event) : nat :=
  length (List.filter
            (λ e, match e with EvSpawnReader => true | _ => false end)
            trace).

End Reader.

(* ===================================================================== *)
(** ** Sample data *)
(* ===================================================================== *)

Module Samples.

(** Message 42 of stream [S], delivered to consumer [C]. *)
Definition msg42 : Msg :=
  mkMsg "orders.new" "first delivery"
    (inr (mkMsgMetadata (mkSequencePair 7 42) "S" "C")).

(** The same message, delivered again. *)
Definition msg42' : Msg :=
  mkMsg "orders.new" "second delivery"
    (inr (mkMsgMetadata (mkSequencePair 8 42) "S" "C")).

(** A message whose metadata names consumer [X]. *)
Definition msgX : Msg :=
  mkMsg "orders.new" "stray"
    (inr (mkMsgMetadata (mkSequencePair 1 5) "S" "X")).

Definition ack42 : AckIndication :=
  mkAckIndication "S" "C" (mkSequencePair 7 42).

Definition ack99 : AckIndication :=
  mkAckIndication "S" "C" (mkSequencePair 9 99).

Definition ackX : AckIndication :=
  mkAckIndication "S" "X" (mkSequencePair 7 42).

(** A tracker bound to [C], and one bound to [Y]. *)
Definition trackerC : jetStreamInflightMsgProcessorImpl :=
  getJetStreamInflightMsgProcessor "orders.new" "C".

Definition trackerY : jetStreamInflightMsgProcessorImpl :=
  getJetStreamInflightMsgProcessor "orders.new" "Y".

(** [trackerC] after it recorded [msg42]. *)
Definition trackerC42 : jetStreamInflightMsgProcessorImpl :=
  (ProcessInflightMessage trackerC msg42).2.

(** A broker that acknowledges every [AckSync], and one that answers none
    in time. *)
Definition brokerUp : AckSyncOracle := λ _ _, None.
Definition brokerDown : AckSyncOracle := λ _ _, Some "nats: timeout".

(** A publish on a closed connection: [PublishAsync] fails at once. *)
Definition envConnClosed : Transport.PublishEnv :=
  {| Transport.pubUpdateLogTags := None;
     Transport.PublishAsync := λ _ _, inl "nats: connection closed";
     Transport.await :=
     λ _, Transport.RecvOk (Transport.mkPubAck "S" 1) true |}.

(** A publish the broker refuses. *)
Definition envNack : Transport.PublishEnv :=
  {| Transport.pubUpdateLogTags := None;
     Transport.PublishAsync := λ _ _, inr 0;
     Transport.await :=
       λ _, Transport.RecvErr (Some "nats: no response from stream") true |}.

(** Collaborators of a dispatcher whose ACK receiver cannot subscribe. *)
Definition envAckDown : Transport.Env :=
  {| Transport.StartEventLoop := λ _, None;
     Transport.SubscribeForACKs := λ _, Some "nats: connection closed";
     Transport.UpdateLogTags := λ _, None;
     Transport.Submit := λ _ _, None;
     Transport.awaitResult := λ _, Transport.ResultRecv None true |}.

(** Modelled from the spec: a task processor whose second start fails
    with [already started] (the design document on the task processor's
    [start]); its code is not among the sources. Beside it, an ACK
    receiver that cannot subscribe. *)
Definition envStartOnce : Transport.Env :=
  {| Transport.StartEventLoop :=
       λ trace,
         if existsb
              (λ e, match e with
                    | Transport.EvStartEventLoop => true
                    | _ => false
                    end) trace
         then Some "already started" else None;
     Transport.SubscribeForACKs := λ _, Some "nats: connection closed";
     Transport.UpdateLogTags := λ _, None;
     Transport.Submit := λ _ _, None;
     Transport.awaitResult := λ _, Transport.ResultRecv None true |}.

(** A dispatcher as [GetPushMessageDispatcher] builds it. *)
Definition dispatcher0 : Transport.pushMessageDispatcher :=
  {| Transport.started := false;
     Transport.subscriber :=
       {| Transport.reading := false;
          Transport.forwardMsg := None;
          Transport.errorCB := None |} |}.

(** A client sink that takes every message, and an alert that does
    nothing. *)
Definition sinkOK : Transport.Sink := λ _ _, None.
Definition alertNone : Transport.AlertOnErrorCB := λ _, [].

End Samples.

Module MoreSamples.

Import Samples.

(** Message 43 of stream [S], delivered to consumer [C]. *)
Definition msg43 : Msg :=
  mkMsg "orders.new" "next delivery"
    (inr (mkMsgMetadata (mkSequencePair 9 43) "S" "C")).

(** [trackerC] after it recorded messages 42 and 43. *)
Definition trackerC4243 : jetStreamInflightMsgProcessorImpl :=
  (ProcessInflightMessage trackerC42 msg43).2.

(** Collaborators that all answer well. *)
Definition envAllUp : Transport.Env :=
  {| Transport.StartEventLoop := λ _, None;
     Transport.SubscribeForACKs := λ _, None;
     Transport.UpdateLogTags := λ _, None;
     Transport.Submit := λ _ _, None;
     Transport.awaitResult := λ _, Transport.ResultRecv None true |}.

(** A task processor whose queue is closed. *)
Definition envQueueClosed : Transport.Env :=
  {| Transport.StartEventLoop := λ _, None;
     Transport.SubscribeForACKs := λ _, None;
     Transport.UpdateLogTags := λ _, None;
     Transport.Submit := λ _ _, Some "queue closed";
     Transport.awaitResult := λ _, Transport.ResultRecv None true |}.

(** A publish the broker acknowledges, and one whose error channel turns
    out closed. *)
Definition envAcked : Transport.PublishEnv :=
  {| Transport.pubUpdateLogTags := None;
     Transport.PublishAsync := λ _ _, inr 0;
     Transport.await :=
       λ _, Transport.RecvOk (Transport.mkPubAck "S" 1) true |}.

Definition envErrClosed : Transport.PublishEnv :=
  {| Transport.pubUpdateLogTags := None;
     Transport.PublishAsync := λ _ _, inr 0;
     Transport.await := λ _, Transport.RecvErr None false |}.

(** A subscriber as [getJetStreamPushSubscriber] builds it. *)
Definition subscriber0 : Transport.jetStreamPushSubscriberImpl :=
  {| Transport.reading := false;
     Transport.forwardMsg := None;
     Transport.errorCB := None |}.

(** What the broker delivers before the context is cancelled. *)
Definition deliveries : list (option Msg) :=
  [Some msg42; None; Some msg43].

(** Three calls of [Start]: the ACK receiver fails at the first, all is
    well at the second and the third. *)
Definition threeStarts : list Reader.StartCall :=
  [Reader.mkStartCall envAckDown sinkOK alertNone;
   Reader.mkStartCall envAllUp sinkOK alertNone;
   Reader.mkStartCall envAllUp sinkOK alertNone].

End MoreSamples.

(* ===================================================================== *)
(** ** Properties of the inflight tracker *)
(* ===================================================================== *)

Section InflightFacts.

Implicit Types (c : jetStreamInflightMsgProcessorImpl) (msg : Msg).
Implicit Types (meta : MsgMetadata) (ack : AckIndication).

(** A record never changes the consumer the tracker is bound to. *)
Lemma ProcessInflightMessage_consumer c msg :
  consumer (ProcessInflightMessage c msg).2 = consumer c.
Proof.
  unfold ProcessInflightMessage.
  destruct (msgMetadata msg) as [err|meta]; [done|].
  by case_decide.
Qed.

(** What an accepted record does to the map. *)
Lemma ProcessInflightMessage_accept c msg meta :
  msgMetadata msg = inr meta →
  consumer c = mdConsumer meta →
  ∃ c', ProcessInflightMessage c msg = (None, c') ∧
    consumer c' = consumer c ∧
    lookupInflight c' (mdStream meta) (mdConsumer meta)
      (seqStream (mdSequence meta)) = Some msg.
Proof.
  intros Hmeta Hcons. unfold ProcessInflightMessage.
  rewrite Hmeta. case_decide as Hne; [done|].
  eexists; split; [reflexivity|]. split; [done|].
  unfold lookupInflight; simpl.
  rewrite lookup_insert_eq; simpl.
  rewrite Hcons, lookup_insert_eq; simpl.
  by rewrite lookup_insert_eq.
Qed.

(** A rejected record leaves the tracker as it was. *)
Lemma ProcessInflightMessage_reject c msg err c' :
  ProcessInflightMessage c msg = (Some err, c') → c' = c.
Proof.
  unfold ProcessInflightMessage.
  destruct (msgMetadata msg) as [e|meta]; [congruence|].
  case_decide; congruence.
Qed.

(** So does a record for another consumer. *)
Lemma ProcessInflightMessage_mismatch c msg meta :
  msgMetadata msg = inr meta →
  consumer c ≠ mdConsumer meta →
  (ProcessInflightMessage c msg).2 = c.
Proof.
  intros Hmeta Hne. unfold ProcessInflightMessage. rewrite Hmeta.
  by case_decide.
Qed.

(** An accepted record carries metadata naming the tracker's consumer. *)
Lemma ProcessInflightMessage_accepted_consumer c msg meta c' :
  msgMetadata msg = inr meta →
  ProcessInflightMessage c msg = (None, c') →
  consumer c = mdConsumer meta.
Proof.
  intros Hmeta. unfold ProcessInflightMessage. rewrite Hmeta.
  case_decide as Hne; [congruence|].
  intros _. by destruct (decide (consumer c = mdConsumer meta)).
Qed.

(** Writing under the only key a map may hold keeps it that small. *)
Lemma insert_only_key {A} (cons : string) (v : A) (m : gmap string A) :
  size m ≤ 1 →
  (∀ k, is_Some (m !! k) → k = cons) →
  size (<[cons := v]> m) ≤ 1 ∧
  ∀ k, is_Some (<[cons := v]> m !! k) → k = cons.
Proof.
  intros Hsize Hkeys. split.
  - destruct (m !! cons) as [x|] eqn:Hm.
    + by rewrite map_size_insert_Some.
    + assert (m = ∅) as ->.
      { apply map_empty. intros i.
        destruct (m !! i) eqn:Hi; [|done].
        assert (i = cons) as -> by (apply Hkeys; eauto). congruence. }
      by rewrite insert_empty, map_size_singleton.
  - intros k. rewrite lookup_insert_is_Some.
    intros [->|[_ Hk]]; [done|by apply Hkeys].
Qed.

(** The bound on consumers holds initially and is kept by a record. *)
Lemma consumersBound_init subj cons :
  consumersBound cons (getJetStreamInflightMsgProcessor subj cons).
Proof.
  split; [done|]. simpl. intros stream ps. by rewrite lookup_empty.
Qed.

Lemma consumersBound_record cons c msg :
  consumersBound cons c →
  consumersBound cons (ProcessInflightMessage c msg).2.
Proof.
  intros [Hc Hb]. unfold ProcessInflightMessage.
  destruct (msgMetadata msg) as [err|meta]; [done|].
  case_decide; [done|]. split; [done|]. simpl.
  intros stream ps.
  destruct (decide (mdStream meta = stream)) as [->|Hne].
  - rewrite lookup_insert_eq. intros [= <-]. simpl. rewrite Hc.
    destruct (inflightPerStream c !! stream) as [ps0|] eqn:Hps.
    + destruct (Hb _ _ Hps) as [Hsz Hk]. by apply insert_only_key.
    + simpl. apply insert_only_key; [rewrite map_size_empty; lia|].
      intros k. rewrite lookup_empty. by intros [? ?].
  - rewrite lookup_insert_ne by done. apply Hb.
Qed.

Variable AckSync : AckSyncOracle.

(** An ACK whose message is on record: [AckSync] is called on that message,
    its result is the result of the call, and the entry goes exactly when
    it succeeded. *)
Lemma ProcessMsgACK_found c acked ack msg :
  lookupInflight c (ackStream ack) (ackConsumer ack)
    (seqStream (ackSeqNum ack)) = Some msg →
  ∃ c', ProcessMsgACK AckSync c acked ack
          = (AckSync acked msg, c', acked ++ [msg]) ∧
    consumer c' = consumer c ∧
    match AckSync acked msg with
    | Some _ => c' = c
    | None =>
      lookupInflight c' (ackStream ack) (ackConsumer ack)
        (seqStream (ackSeqNum ack)) = None
    end.
Proof.
  unfold lookupInflight, ProcessMsgACK. intros Hl.
  destruct (inflightPerStream c !! ackStream ack) as [ps|]; [|done].
  simpl in Hl.
  destruct (consumers ps !! ackConsumer ack) as [pc|]; [|done].
  simpl in Hl. rewrite Hl.
  destruct (AckSync acked msg) as [err|]; eexists; (split; [reflexivity|]).
  - done.
  - split; [done|]. simpl.
    rewrite lookup_insert_eq; simpl.
    rewrite lookup_insert_eq; simpl.
    apply lookup_delete_eq.
Qed.

(** An ACK whose message is not on record changes nothing and calls
    nothing. *)
Lemma ProcessMsgACK_missing c acked ack :
  lookupInflight c (ackStream ack) (ackConsumer ack)
    (seqStream (ackSeqNum ack)) = None →
  ∃ err, ProcessMsgACK AckSync c acked ack = (Some err, c, acked).
Proof.
  unfold lookupInflight, ProcessMsgACK. intros Hl.
  destruct (inflightPerStream c !! ackStream ack) as [ps|]; [|eauto].
  simpl in Hl.
  destruct (consumers ps !! ackConsumer ack) as [pc|]; [|eauto].
  simpl in Hl. rewrite Hl. eauto.
Qed.

(** [ProcessMsgACK] never changes the consumer the tracker is bound to. *)
Lemma ProcessMsgACK_consumer c acked ack :
  consumer (ProcessMsgACK AckSync c acked ack).1.2 = consumer c.
Proof.
  destruct (lookupInflight c (ackStream ack) (ackConsumer ack)
              (seqStream (ackSeqNum ack))) as [msg|] eqn:Hl.
  - destruct (ProcessMsgACK_found c acked ack msg Hl) as (c' & -> & Hc & _).
    done.
  - destruct (ProcessMsgACK_missing c acked ack Hl) as (err & ->). done.
Qed.

(** [ProcessMsgACK] keeps the bound on consumers. *)
Lemma consumersBound_ack cons c acked ack :
  consumersBound cons c →
  consumersBound cons (ProcessMsgACK AckSync c acked ack).1.2.
Proof.
  intros [Hc Hb]. unfold ProcessMsgACK.
  destruct (inflightPerStream c !! ackStream ack) as [ps|] eqn:Hps;
    [|by split].
  destruct (consumers ps !! ackConsumer ack) as [pc|] eqn:Hpc; [|by split].
  destruct (inflight pc !! seqStream (ackSeqNum ack)) as [msg|];
    [|by split].
  destruct (AckSync acked msg); [by split|].
  split; [done|]. simpl. intros stream ps'.
  destruct (Hb _ _ Hps) as [Hsz Hk].
  assert (ackConsumer ack = cons) as Hcons by (apply Hk; eauto).
  destruct (decide (ackStream ack = stream)) as [<-|Hne].
  - rewrite lookup_insert_eq. intros [= <-]. simpl. rewrite Hcons.
    by apply insert_only_key.
  - rewrite lookup_insert_ne by done. apply Hb.
Qed.

(** Every reachable state satisfies the bound. *)
Lemma reachable_consumersBound subj cons w :
  reachable AckSync subj cons w → consumersBound cons w.1.
Proof.
  induction 1 as [|w w' _ IH Hstep].
  - apply consumersBound_init.
  - destruct Hstep; simpl in *.
    + by apply consumersBound_record.
    + by apply consumersBound_ack.
Qed.

End InflightFacts.

Section InflightClaims.

Implicit Types (c : jetStreamInflightMsgProcessorImpl) (msg : Msg).
Implicit Types (meta : MsgMetadata) (ack : AckIndication).

Variable AckSync : AckSyncOracle.

(** C1. When a message is recorded with success and an ACK indication
    with the same stream, consumer and stream sequence is processed next,
    the broker accepting the ack-sync, then [ProcessMsgACK] returns nil,
    the map holds nothing under that key any more, and [AckSync] was
    called once, on that message. *)
Theorem record_then_ack_clears_entry c c1 acked msg meta ack :
  msgMetadata msg = inr meta →
  ackStream ack = mdStream meta →
  ackConsumer ack = mdConsumer meta →
  seqStream (ackSeqNum ack) = seqStream (mdSequence meta) →
  ProcessInflightMessage c msg = (None, c1) →
  AckSync acked msg = None →
  ∃ c2, ProcessMsgACK AckSync c1 acked ack = (None, c2, acked ++ [msg]) ∧
    lookupInflight c2 (mdStream meta) (mdConsumer meta)
      (seqStream (mdSequence meta)) = None.
Proof.
  intros Hmeta Hs Hc Hq Hrec Hack.
  pose proof (ProcessInflightMessage_accepted_consumer _ _ _ _ Hmeta Hrec)
    as Hcons.
  destruct (ProcessInflightMessage_accept c msg meta Hmeta Hcons)
    as (c1' & Hrec' & _ & Hl).
  assert (c1' = c1) as -> by congruence.
  rewrite <- Hs, <- Hc, <- Hq in Hl.
  destruct (ProcessMsgACK_found AckSync c1 acked ack msg Hl)
    as (c2 & Hrun & _ & Hgone).
  rewrite Hack in Hrun, Hgone.
  exists c2. split; [done|]. by rewrite <- Hs, <- Hc, <- Hq.
Qed.

(** C2. An ACK indication for which the map holds no message makes
    [ProcessMsgACK] return an error that says which record is absent, and
    leaves the map (and the broker) untouched; when the stream and the
    consumer are on record and only the sequence is not, the error is
    [no records related message [seq] for consumer@stream]. *)
Theorem ack_without_record_is_absent c acked ack :
  lookupInflight c (ackStream ack) (ackConsumer ack)
    (seqStream (ackSeqNum ack)) = None →
  ∃ err, ProcessMsgACK AckSync c acked ack = (Some err, c, acked) ∧
    (err = "no records related to stream " +:+ ackStream ack ∨
     err = "no records related to consumer " +:+ ackConsumer ack +:+
           " on stream " +:+ ackStream ack ∨
     err = "no records related message [" +:+
           fmt_d (seqStream (ackSeqNum ack)) +:+ "] for " +:+
           ackConsumer ack +:+ "@" +:+ ackStream ack) ∧
    (∀ ps pc,
       inflightPerStream c !! ackStream ack = Some ps →
       consumers ps !! ackConsumer ack = Some pc →
       err = "no records related message [" +:+
             fmt_d (seqStream (ackSeqNum ack)) +:+ "] for " +:+
             ackConsumer ack +:+ "@" +:+ ackStream ack).
Proof.
  unfold lookupInflight, ProcessMsgACK. intros Hl.
  destruct (inflightPerStream c !! ackStream ack) as [ps|] eqn:Hps.
  2:{ eexists; split; [reflexivity|]. split; [by left|].
      intros; simplify_eq. }
  simpl in Hl.
  destruct (consumers ps !! ackConsumer ack) as [pc|] eqn:Hpc.
  2:{ eexists; split; [reflexivity|]. split; [right; by left|].
      intros; simplify_eq. }
  simpl in Hl. rewrite Hl.
  eexists; split; [reflexivity|]. split; [right; by right|]. done.
Qed.

(** C3. A message whose metadata names a consumer other than the one the
    tracker is bound to is refused with
    [message expected for Y, but meta says X], and a message whose
    metadata cannot be read is refused with the client library's error; in
    both cases nothing is inserted. *)
Theorem record_refuses_foreign_consumer c msg :
  (∀ meta,
     msgMetadata msg = inr meta → mdConsumer meta ≠ consumer c →
     ProcessInflightMessage c msg =
       (Some ("message expected for " +:+ consumer c +:+
              ", but meta says " +:+ mdConsumer meta), c)) ∧
  (∀ err,
     msgMetadata msg = inl err →
     ProcessInflightMessage c msg = (Some err, c)).
Proof.
  unfold ProcessInflightMessage. split.
  - intros meta -> Hne. case_decide; [done|].
    destruct (decide (consumer c = mdConsumer meta)); congruence.
  - by intros err ->.
Qed.

(** C4. For an ACK indication whose message is on record, [ProcessMsgACK]
    calls [AckSync] on it and returns what the call returned; the entry is
    gone afterwards exactly when the call succeeded, and when it failed
    the tracker is as it was before, the entry included. *)
Theorem ack_removes_iff_ack_sync_succeeds c acked ack msg :
  lookupInflight c (ackStream ack) (ackConsumer ack)
    (seqStream (ackSeqNum ack)) = Some msg →
  (ProcessMsgACK AckSync c acked ack).1.1 = AckSync acked msg ∧
  (ProcessMsgACK AckSync c acked ack).2 = acked ++ [msg] ∧
  (lookupInflight (ProcessMsgACK AckSync c acked ack).1.2
     (ackStream ack) (ackConsumer ack) (seqStream (ackSeqNum ack)) = None
   ↔ AckSync acked msg = None) ∧
  (∀ err, AckSync acked msg = Some err →
     ProcessMsgACK AckSync c acked ack = (Some err, c, acked ++ [msg]) ∧
     lookupInflight (ProcessMsgACK AckSync c acked ack).1.2
       (ackStream ack) (ackConsumer ack) (seqStream (ackSeqNum ack))
     = Some msg).
Proof.
  intros Hl.
  destruct (ProcessMsgACK_found AckSync c acked ack msg Hl)
    as (c' & Hrun & _ & Hcase).
  rewrite Hrun; simpl. split; [done|]. split; [done|]. split; [split|].
  - intros Hgone. destruct (AckSync acked msg) as [err|]; [|done].
    subst c'. congruence.
  - intros Hok. by rewrite Hok in Hcase.
  - intros err Herr. rewrite Herr in Hcase |- *. by subst c'.
Qed.

(** C7. For two messages with the same stream, consumer and stream
    sequence, recording the first and then the second leaves the tracker
    in the state that recording the second alone leaves it in; when the
    tracker accepts them, the second record returns nil and the entry
    under the key is the second message. *)
Theorem duplicate_record_overwrites c m1 m2 meta1 meta2 :
  msgMetadata m1 = inr meta1 →
  msgMetadata m2 = inr meta2 →
  mdStream meta1 = mdStream meta2 →
  mdConsumer meta1 = mdConsumer meta2 →
  seqStream (mdSequence meta1) = seqStream (mdSequence meta2) →
  (ProcessInflightMessage (ProcessInflightMessage c m1).2 m2).2
    = (ProcessInflightMessage c m2).2 ∧
  (consumer c = mdConsumer meta2 →
   ProcessInflightMessage c m1 = (None, (ProcessInflightMessage c m1).2) ∧
   (ProcessInflightMessage (ProcessInflightMessage c m1).2 m2).1 = None ∧
   lookupInflight
     (ProcessInflightMessage (ProcessInflightMessage c m1).2 m2).2
     (mdStream meta2) (mdConsumer meta2) (seqStream (mdSequence meta2))
   = Some m2).
Proof.
  intros H1 H2 Hs Hc Hq. split.
  - destruct (decide (consumer c = mdConsumer meta1)) as [Heq|Hne].
    + unfold ProcessInflightMessage. rewrite H1, H2.
      rewrite <- Hs, <- Hc, <- Hq.
      destruct (decide (consumer c ≠ mdConsumer meta1)) as [|_]; [done|].
      simpl.
      destruct (decide (consumer c ≠ mdConsumer meta1)) as [|_]; [done|].
      simpl. rewrite !lookup_insert_eq. simpl.
      rewrite !lookup_insert_eq. simpl.
      by rewrite !insert_insert_eq.
    + by rewrite (ProcessInflightMessage_mismatch c m1 meta1).
  - intros Hcons.
    assert (consumer c = mdConsumer meta1) as Hcons1 by congruence.
    destruct (ProcessInflightMessage_accept c m1 meta1 H1 Hcons1)
      as (c1 & Hrun1 & Hc1 & _).
    rewrite Hrun1; simpl. rewrite <- Hc1 in Hcons.
    destruct (ProcessInflightMessage_accept c1 m2 meta2 H2 Hcons)
      as (c2 & Hrun2 & _ & Hl).
    rewrite Hrun2; simpl. done.
Qed.

(** C9. In every state the tracker can reach, each per-stream record holds
    at most one consumer, the one the tracker is bound to; and so an ACK
    indication that names another consumer on a stream on record gets the
    error [no records related to consumer ... on stream ...], the map and
    the broker untouched. *)
Theorem reachable_single_consumer subj cons w :
  reachable AckSync subj cons w →
  consumersBound cons w.1 ∧
  ∀ ack,
    ackConsumer ack ≠ cons →
    is_Some (inflightPerStream w.1 !! ackStream ack) →
    ProcessMsgACK AckSync w.1 w.2 ack =
      (Some ("no records related to consumer " +:+ ackConsumer ack +:+
             " on stream " +:+ ackStream ack), w.1, w.2).
Proof.
  intros Hreach.
  pose proof (reachable_consumersBound AckSync _ _ _ Hreach) as Hb.
  split; [done|]. destruct Hb as [_ Hb].
  intros ack Hne [ps Hps]. unfold ProcessMsgACK. rewrite Hps.
  destruct (consumers ps !! ackConsumer ack) as [pc|] eqn:Hpc; [|done].
  destruct (Hb _ _ Hps) as [_ Hk].
  exfalso. apply Hne, Hk. eauto.
Qed.

End InflightClaims.

Section InflightScenarios.

Import Samples.

(** Record then ack of message 42 on [S]/[C]: the map is empty of it and
    the broker saw one ack-sync. *)
Lemma record_then_ack_clears_entry_witness :
  ∃ c2,
    ProcessMsgACK brokerUp trackerC42 [] ack42 = (None, c2, [msg42]) ∧
    lookupInflight c2 "S" "C" 42 = None.
Proof.
  apply (record_then_ack_clears_entry brokerUp trackerC trackerC42 []
           msg42 (mkMsgMetadata (mkSequencePair 7 42) "S" "C") ack42);
    vm_compute; reflexivity.
Defined.

(** An ACK for sequence 99 when only 42 is on record. *)
Lemma ack_without_record_is_absent_witness :
  ProcessMsgACK brokerUp trackerC42 [] ack99 =
    (Some "no records related message [99] for C@S", trackerC42, []).
Proof.
  destruct (ack_without_record_is_absent brokerUp trackerC42 [] ack99)
    as (err & Hrun & _ & Hmsg); [vm_compute; reflexivity|].
  rewrite Hrun.
  erewrite Hmsg; [reflexivity | vm_compute; reflexivity
                 | vm_compute; reflexivity].
Defined.

(** On a tracker that recorded nothing, the same ACK is refused for its
    stream. *)
Example ack_on_fresh_tracker :
  ProcessMsgACK brokerUp trackerC [] ack99 =
    (Some "no records related to stream S", trackerC, []).
Proof. vm_compute. reflexivity. Qed.

(** A message for [X] offered to the tracker of [Y]. *)
Lemma record_refuses_foreign_consumer_witness :
  ProcessInflightMessage trackerY msgX =
    (Some "message expected for Y, but meta says X", trackerY).
Proof.
  apply (proj1 (record_refuses_foreign_consumer trackerY msgX)
           (mkMsgMetadata (mkSequencePair 1 5) "S" "X"));
    [reflexivity | discriminate].
Defined.

(** The broker does not answer the ack-sync of message 42: the error is
    handed back and the tracker is as before. *)
Lemma ack_removes_iff_ack_sync_succeeds_witness :
  ProcessMsgACK brokerDown trackerC42 [] ack42 =
    (Some "nats: timeout", trackerC42, [msg42]).
Proof.
  destruct (ack_removes_iff_ack_sync_succeeds brokerDown trackerC42 []
              ack42 msg42) as (_ & _ & _ & Hfail);
    [vm_compute; reflexivity|].
  destruct (Hfail "nats: timeout") as [Hrun _]; [reflexivity|].
  exact Hrun.
Defined.

(** Message 42 delivered twice. *)
Lemma duplicate_record_overwrites_witness :
  (ProcessInflightMessage (ProcessInflightMessage trackerC msg42).2
     msg42').2 = (ProcessInflightMessage trackerC msg42').2 ∧
  lookupInflight
    (ProcessInflightMessage (ProcessInflightMessage trackerC msg42).2
       msg42').2 "S" "C" 42 = Some msg42'.
Proof.
  destruct (duplicate_record_overwrites trackerC msg42 msg42'
              (mkMsgMetadata (mkSequencePair 7 42) "S" "C")
              (mkMsgMetadata (mkSequencePair 8 42) "S" "C"))
    as [Hsame Hacc]; try reflexivity.
  split; [exact Hsame|].
  destruct Hacc as (_ & _ & Hl); [reflexivity|]. exact Hl.
Defined.

(** The tracker of [C] holding message 42 is reachable, and refuses an ACK
    that names [X]. *)
Lemma reachable_single_consumer_witness :
  ProcessMsgACK brokerUp trackerC42 [] ackX =
    (Some "no records related to consumer X on stream S", trackerC42, []).
Proof.
  destruct (reachable_single_consumer brokerUp "orders.new" "C"
              (trackerC42, [])) as [_ Hack].
  - eapply reachable_step; [apply reachable_init|].
    apply (step_record brokerUp trackerC [] msg42).
  - apply (Hack ackX); [discriminate|]. vm_compute. eauto.
Defined.

End InflightScenarios.

(* ===================================================================== *)
(** ** Properties of the publisher *)
(* ===================================================================== *)

Section PublisherClaims.

Import Transport Samples.

(** A failed log-tag copy or a failed [PublishAsync] is returned at once,
    before anything is awaited. *)
Lemma Publish_early_error env subject msg :
  (∀ err, pubUpdateLogTags env = Some err →
          Publish env subject msg = Some err) ∧
  (∀ err, pubUpdateLogTags env = None →
          PublishAsync env subject msg = inl err →
          Publish env subject msg = Some err).
Proof.
  unfold Publish. split.
  - by intros err ->.
  - by intros err -> ->.
Qed.

(** A closed acknowledgement channel is reported as an error of its
    own. *)
Lemma Publish_closed_channel env subject msg ack :
  pubUpdateLogTags env = None →
  PublishAsync env subject msg = inr ack →
  chanOpen (await env ack) = false →
  Publish env subject msg =
    Some "reading nats.PubAckFuture OK channel failure" ∨
  Publish env subject msg =
    Some "reading nats.PubAckFuture error channel failure".
Proof.
  unfold Publish. intros -> -> Hclosed.
  destruct (await env ack) as [sig ok|txErr ok|ctxErr]; simpl in Hclosed;
    subst; auto. discriminate.
Qed.

(** C5, as the code has it. When the log tags are copied, [PublishAsync]
    hands back a future, and the case that fires did not find its channel
    closed, [Publish] reports one of the three outcomes, and which one is
    fixed by the case that fired: nil for the broker's ack, the broker's
    error as it is for a nack, the context's error for a cancellation. *)
Theorem publish_reports_awaited_outcome env subject msg ack :
  pubUpdateLogTags env = None →
  PublishAsync env subject msg = inr ack →
  chanOpen (await env ack) = true →
  ReportedOutcome env subject msg (Publish env subject msg) ∧
  Publish env subject msg =
    match await env ack with
    | RecvOk _ _ => None
    | RecvErr txErr _ => txErr
    | CtxDone ctxErr => Some ctxErr
    end.
Proof.
  intros Htags Hpub Hopen.
  assert (Publish env subject msg =
          match await env ack with
          | RecvOk _ _ => None
          | RecvErr txErr _ => txErr
          | CtxDone ctxErr => Some ctxErr
          end) as Hres.
  { unfold Publish. rewrite Htags, Hpub.
    destruct (await env ack) as [sig ok|txErr ok|ctxErr];
      simpl in Hopen; subst; done. }
  split; [|done]. rewrite Hres.
  destruct (await env ack) as [sig ok|txErr ok|ctxErr] eqn:Hawait;
    simpl in Hopen; subst.
  - by eapply outcome_ack.
  - by eapply outcome_nack.
  - by eapply outcome_cancelled.
Qed.

(** A nack of the broker comes back as it is. *)
Lemma publish_reports_awaited_outcome_witness :
  Publish envNack "orders.new" "payload"
    = Some "nats: no response from stream".
Proof.
  exact (proj2 (publish_reports_awaited_outcome envNack "orders.new"
                  "payload" 0 eq_refl eq_refl eq_refl)).
Defined.

(** C5, as stated, fails: on a closed connection [PublishAsync] itself
    returns an error, and [Publish] returns it although the broker neither
    acknowledged nor refused and the context was not cancelled. *)
Lemma publish_fourth_outcome :
  Publish envConnClosed "orders.new" "payload"
    = Some "nats: connection closed" ∧
  ¬ ReportedOutcome envConnClosed "orders.new" "payload"
      (Publish envConnClosed "orders.new" "payload").
Proof.
  split; [reflexivity|].
  intros [ack sig Hpub _ _|ack txErr Hpub _ _|ack ctxErr Hpub _ _];
    discriminate Hpub.
Qed.

End PublisherClaims.

(* ===================================================================== *)
(** ** Properties of the dispatcher *)
(* ===================================================================== *)

Section DispatcherClaims.

Import Transport Samples.

Implicit Types (env : Env) (d : pushMessageDispatcher).
Implicit Types (trace : list Event).

(** A record in non-blocking mode is one submission, and its result is
    the result of the submission. *)
Lemma RecordInflightMessage_nonblocking env msg trace :
  RecordInflightMessage env msg false trace =
    (Submit env trace (jsInflightCtrlRecordNewMsg false msg),
     trace ++ [EvSubmit (jsInflightCtrlRecordNewMsg false msg)]).
Proof.
  unfold RecordInflightMessage.
  by destruct (Submit env trace _).
Qed.

(** [StartReading] reports success exactly when it set [reading]. *)
Lemma StartReading_result env r forwardCB alertCB trace :
  reading r = false →
  (reading (StartReading env r forwardCB alertCB trace).1.2 = true ↔
   (StartReading env r forwardCB alertCB trace).1.1 = None).
Proof.
  intros Hr. unfold StartReading.
  destruct (UpdateLogTags env trace); simpl; [by rewrite Hr|].
  by rewrite Hr.
Qed.

(** A dispatcher that is not started passes the guard of [Start] and
    starts the task processor first. *)
Lemma Start_passes_guard env d msgOutput alertCB trace :
  started d = false →
  ∃ rest,
    (Start env d msgOutput alertCB trace).2
      = trace ++ EvStartEventLoop :: rest.
Proof.
  intros Hd. unfold Start. rewrite Hd.
  destruct (StartEventLoop env trace); [by exists []|].
  destruct (SubscribeForACKs env _).
  { exists [EvSubscribeForACKs]. simpl. by rewrite <- app_assoc. }
  unfold StartReading.
  destruct (UpdateLogTags env _); simpl.
  { exists [EvSubscribeForACKs; EvUpdateLogTags].
    by rewrite <- !app_assoc. }
  destruct (reading (subscriber d)); simpl.
  - exists [EvSubscribeForACKs; EvUpdateLogTags].
    by rewrite <- !app_assoc.
  - exists [EvSubscribeForACKs; EvUpdateLogTags; EvSpawnReader].
    by rewrite <- !app_assoc.
Qed.

(** A started dispatcher refuses [Start] without calling anything. *)
Lemma Start_guard env d msgOutput alertCB trace :
  started d = true →
  Start env d msgOutput alertCB trace = (Some "already started", d, trace).
Proof. intros Hd. unfold Start. by rewrite Hd. Qed.

(** [Start] sets the flag exactly when it returns nil. *)
Lemma Start_flag env d msgOutput alertCB trace :
  started d = false →
  (started (Start env d msgOutput alertCB trace).1.2 = true ↔
   (Start env d msgOutput alertCB trace).1.1 = None).
Proof.
  intros Hd. unfold Start. rewrite Hd.
  destruct (StartEventLoop env trace); simpl; [by rewrite Hd|].
  destruct (SubscribeForACKs env _); simpl; [by rewrite Hd|].
  destruct (StartReading env _ _ _ _) as [[[err|] r] trace3]; simpl; done.
Qed.

(** C6. For every message the forward callback handles, the client sink
    is called first; the tracker's record, when it follows, is one
    submission in non-blocking mode made after that call; and the result
    of the submission, a failure included, is handed back with the call of
    the sink still in the trace before it. *)
Theorem forward_sink_before_record env msgOutput msg trace :
  ∃ rest,
    (forwardCB env msgOutput msg trace).2
      = trace ++ EvMsgOutput msg :: rest ∧
    (∀ task, In (EvSubmit task) rest →
             task = jsInflightCtrlRecordNewMsg false msg) ∧
    (msgOutput trace msg = None →
     rest = [EvSubmit (jsInflightCtrlRecordNewMsg false msg)] ∧
     (forwardCB env msgOutput msg trace).1
       = Submit env (trace ++ [EvMsgOutput msg])
           (jsInflightCtrlRecordNewMsg false msg)) ∧
    (∀ err, msgOutput trace msg = Some err →
            rest = [] ∧ (forwardCB env msgOutput msg trace).1 = Some err).
Proof.
  unfold forwardCB. rewrite RecordInflightMessage_nonblocking.
  destruct (msgOutput trace msg) as [err|].
  - exists []. simpl. split; [done|]. split; [by intros task []|].
    split; [done|]. by intros e [= <-].
  - exists [EvSubmit (jsInflightCtrlRecordNewMsg false msg)].
    assert (∀ t, In (EvSubmit t)
                   [EvSubmit (jsInflightCtrlRecordNewMsg false msg)] →
                 t = jsInflightCtrlRecordNewMsg false msg) as Hin.
    { intros t [[= <-]|[]]. done. }
    destruct (Submit env _ _); simpl; rewrite <- app_assoc; simpl;
      (split; [done|]); (split; [done|]); (split; [done|]); done.
Qed.

(** A failed [Start] on a dispatcher that is not started leaves the
    subscriber as it was. *)
Lemma Start_failed_subscriber env d msgOutput alertCB trace :
  started d = false →
  (Start env d msgOutput alertCB trace).1.1 ≠ None →
  subscriber (Start env d msgOutput alertCB trace).1.2 = subscriber d.
Proof.
  intros Hd. unfold Start. rewrite Hd.
  destruct (StartEventLoop env trace); [done|].
  destruct (SubscribeForACKs env _); [done|].
  unfold StartReading.
  destruct (UpdateLogTags env _); [done|].
  by destruct (reading (subscriber d)).
Qed.

(** C10, as the code has it. When [Start], called on a dispatcher that is
    not started, returns an error, the flag is still false, and the flag is
    true after the call exactly when it returned nil. So the next [Start]
    is not turned away by the guard on the flag: it starts the task
    processor again and returns what the collaborators return, the error
    of the task processor as it is when that start fails, and nil, with
    the flag set, when they all succeed. *)
Theorem failed_start_leaves_unstarted env d msgOutput alertCB trace :
  started d = false →
  (started (Start env d msgOutput alertCB trace).1.2 = true ↔
   (Start env d msgOutput alertCB trace).1.1 = None) ∧
  (∀ err,
     (Start env d msgOutput alertCB trace).1.1 = Some err →
     started (Start env d msgOutput alertCB trace).1.2 = false ∧
     ∀ env' msgOutput' alertCB' trace',
       (∃ rest,
          (Start env' (Start env d msgOutput alertCB trace).1.2
             msgOutput' alertCB' trace').2
            = trace' ++ EvStartEventLoop :: rest) ∧
       (∀ err',
          StartEventLoop env' trace' = Some err' →
          Start env' (Start env d msgOutput alertCB trace).1.2
            msgOutput' alertCB' trace'
            = (Some err', (Start env d msgOutput alertCB trace).1.2,
               trace' ++ [EvStartEventLoop])) ∧
       (reading (subscriber d) = false →
        StartEventLoop env' trace' = None →
        SubscribeForACKs env' (trace' ++ [EvStartEventLoop]) = None →
        UpdateLogTags env'
          (trace' ++ [EvStartEventLoop; EvSubscribeForACKs]) = None →
        (Start env' (Start env d msgOutput alertCB trace).1.2
           msgOutput' alertCB' trace').1.1 = None ∧
        started (Start env' (Start env d msgOutput alertCB trace).1.2
                   msgOutput' alertCB' trace').1.2 = true)).
Proof.
  intros Hd. pose proof (Start_flag env d msgOutput alertCB trace Hd) as Hf.
  split; [done|]. intros err Herr.
  assert (started (Start env d msgOutput alertCB trace).1.2 = false) as Hd'.
  { destruct (started (Start env d msgOutput alertCB trace).1.2) eqn:E;
      [|done].
    destruct Hf as [Hf _]. rewrite Hf in Herr; done. }
  assert (subscriber (Start env d msgOutput alertCB trace).1.2
          = subscriber d) as Hsub.
  { apply Start_failed_subscriber; [done|]. by rewrite Herr. }
  split; [done|]. clear Hf Herr.
  destruct (Start env d msgOutput alertCB trace) as [[r1 d1] trace1].
  simpl in *. intros env' msgOutput' alertCB' trace'.
  split; [by apply Start_passes_guard|]. split.
  - intros err' Htp. unfold Start. by rewrite Hd', Htp.
  - intros Hr Htp Hack Htags. unfold Start, StartReading.
    rewrite Hd', Htp, Hack, Hsub, Hr. rewrite <- !app_assoc. simpl.
    by rewrite Htags.
Qed.

(** The ACK receiver cannot subscribe: [Start] fails, the dispatcher is
    still not started. *)
Lemma failed_start_leaves_unstarted_witness :
  (Start envAckDown dispatcher0 sinkOK alertNone []).1.1
    = Some "nats: connection closed" ∧
  started (Start envAckDown dispatcher0 sinkOK alertNone []).1.2 = false.
Proof.
  split; [reflexivity|].
  apply (proj2 (failed_start_leaves_unstarted envAckDown dispatcher0
                  sinkOK alertNone [] eq_refl)
           "nats: connection closed" eq_refl).
Defined.

(** C10, as stated, fails: the task processor started, the ACK receiver
    did not, and [Start] returned that error with the flag still false;
    the next [Start] passes the guard, starts the task processor a second
    time, and returns the error of that start, [already started]. *)
Lemma retry_rejected_with_already_started :
  (Start envStartOnce dispatcher0 sinkOK alertNone []).1.1
    = Some "nats: connection closed" ∧
  started (Start envStartOnce dispatcher0 sinkOK alertNone []).1.2
    = false ∧
  (Start envStartOnce
     (Start envStartOnce dispatcher0 sinkOK alertNone []).1.2
     sinkOK alertNone
     (Start envStartOnce dispatcher0 sinkOK alertNone []).2).1.1
    = Some "already started".
Proof. repeat split; reflexivity. Qed.

End DispatcherClaims.

(* ===================================================================== *)
(** ** Properties of the interval timer *)
(* ===================================================================== *)

Section TimerClaims.

Import Timer.

Implicit Types (t : IntervalTimer) (p n k m : nat).

Lemma sleep_S n t : sleep (S n) t = tick (sleep n t).
Proof. reflexivity. Qed.

(** Sleeping in two stretches is sleeping once for their sum. *)
Lemma sleep_add n m t : sleep m (sleep n t) = sleep (n + m) t.
Proof.
  induction m as [|m IH].
  - by rewrite Nat.add_0_r.
  - by rewrite Nat.add_succ_r, !sleep_S, IH.
Qed.

(** A timer with no schedule only sees the clock advance. *)
Lemma sleep_idle n t :
  schedule t = None →
  sleep n t = {| now := now t + n; schedule := None; invoked := invoked t |}.
Proof.
  intros Hs. induction n as [|n IH].
  - destruct t; simpl in *. by rewrite Hs, Nat.add_0_r.
  - rewrite sleep_S, IH. unfold tick; simpl.
    by rewrite Nat.add_succ_r.
Qed.

(** A one-shot schedule, tick by tick: pending until [p] ticks went by,
    then fired once and gone. *)
Lemma sleep_Start_one_shot t p n :
  0 < p →
  sleep n (Start p true t) =
    if n <? p then
      {| now := now t + n;
         schedule := Some {| period := p; fire_once := true;
                             due := now t + p |};
         invoked := invoked t |}
    else
      {| now := now t + n; schedule := None;
         invoked := invoked t ++ [now t + p] |}.
Proof.
  intros Hp. induction n as [|n IH].
  - destruct (Nat.ltb_spec 0 p); [|lia].
    unfold Start; simpl. by rewrite Nat.add_0_r.
  - rewrite sleep_S, IH.
    destruct (Nat.ltb_spec n p) as [Hn|Hn];
      destruct (Nat.ltb_spec (S n) p) as [Hn'|Hn']; try lia;
      unfold tick; simpl.
    + destruct (Nat.leb_spec (now t + p) (S (now t + n))); [lia|].
      by rewrite Nat.add_succ_r.
    + destruct (Nat.leb_spec (now t + p) (S (now t + n))); [|lia].
      assert (p = S n) as -> by lia.
      by rewrite Nat.add_succ_r.
    + by rewrite Nat.add_succ_r.
Qed.

(** C8. After [Start] with [fire_once] and a period of [p] ticks, the
    callback has run once more when [p] ticks or more went by, at the
    tick [p] after the start, and not at all before that; whatever
    schedule the timer had before the start does not fire. In particular a
    second start made before the first one fired replaces it: only the
    second schedule fires. *)
Theorem one_shot_fires_once_per_start t p n :
  0 < p →
  invoked (sleep n (Start p true t))
    = invoked t ++ (if p <=? n then [now t + p] else []) ∧
  ∀ k p' m,
    k < p → 0 < p' →
    invoked (sleep m (Start p' true (sleep k (Start p true t))))
      = invoked t ++ (if p' <=? m then [now t + k + p'] else []).
Proof.
  intros Hp.
  assert (∀ t' q j, 0 < q →
            invoked (sleep j (Start q true t'))
              = invoked t' ++ (if q <=? j then [now t' + q] else []))
    as Hone.
  { intros t' q j Hq. rewrite sleep_Start_one_shot by done.
    destruct (Nat.ltb_spec j q); destruct (Nat.leb_spec q j); try lia;
      simpl; [by rewrite app_nil_r|done]. }
  split; [by apply Hone|].
  intros k p' m Hk Hp'. rewrite Hone by done.
  rewrite sleep_Start_one_shot by done.
  destruct (Nat.ltb_spec k p); [|lia]. done.
Qed.

(** The first start of [TestIntervalTimerOneShot]: 10 ticks, watched for
    12 and for 22; and a restart after 4 ticks with a period of 5. *)
Lemma one_shot_fires_once_per_start_witness :
  invoked (sleep 12 (Start 10 true GetIntervalTimerInstance)) = [10] ∧
  invoked (sleep 6 (Start 5 true
                      (sleep 4 (Start 10 true GetIntervalTimerInstance))))
    = [9].
Proof.
  destruct (one_shot_fires_once_per_start GetIntervalTimerInstance 10 12)
    as [Hfirst Hnext]; [lia|].
  split; [exact Hfirst|].
  apply (Hnext 4 5 6); lia.
Defined.

(** [TestIntervalTimerOneShot], step by step: the counter reads 1 after
    12 ms, still 1 after 10 ms more, and 2 at 6 ms after the restart. *)
Example TestIntervalTimerOneShot :
  let uut1 := sleep 12 (Start 10 true GetIntervalTimerInstance) in
  let uut2 := sleep 10 uut1 in
  let uut3 := sleep 6 (Start 5 true uut2) in
  value uut1 = 1 ∧ value uut2 = 1 ∧ value uut3 = 2.
Proof. vm_compute. done. Qed.

End TimerClaims.

(* ===================================================================== *)
(** ** Further properties of the inflight tracker *)
(* ===================================================================== *)

Section InflightEntries.

Import Handlers.

Implicit Types (c : jetStreamInflightMsgProcessorImpl) (msg : Msg).
Implicit Types (meta : MsgMetadata) (ack : AckIndication).

(** The entries after an accepted record: the new one under its key, the
    old ones elsewhere. *)
Lemma lookupInflight_after_record c msg meta stream k seq :
  msgMetadata msg = inr meta →
  consumer c = mdConsumer meta →
  lookupInflight (ProcessInflightMessage c msg).2 stream k seq =
    if decide (stream = mdStream meta ∧ k = mdConsumer meta ∧
               seq = seqStream (mdSequence meta))
    then Some msg else lookupInflight c stream k seq.
Proof.
  intros Hmeta Hcons. unfold ProcessInflightMessage. rewrite Hmeta.
  case_decide as Hne; [done|]. clear Hne. rewrite Hcons.
  unfold lookupInflight; simpl.
  destruct (decide (stream = mdStream meta)) as [->|Hs].
  2:{ rewrite lookup_insert_ne by done. case_decide; [|done]. tauto. }
  rewrite lookup_insert_eq; simpl.
  destruct (decide (k = mdConsumer meta)) as [->|Hk].
  2:{ rewrite lookup_insert_ne by done. case_decide; [tauto|].
      by destruct (inflightPerStream c !! mdStream meta). }
  rewrite lookup_insert_eq; simpl.
  destruct (decide (seq = seqStream (mdSequence meta))) as [->|Hq].
  { rewrite lookup_insert_eq. by case_decide; [|tauto]. }
  rewrite lookup_insert_ne by done. case_decide; [tauto|].
  destruct (inflightPerStream c !! mdStream meta) as [ps|]; simpl; [|done].
  by destruct (consumers ps !! mdConsumer meta).
Qed.

Variable AckSync : AckSyncOracle.

(** The entries after an ACK that found its message and was accepted by
    the broker: the one under the key is gone, the others stay. *)
Lemma lookupInflight_after_ack c acked ack msg stream k seq :
  lookupInflight c (ackStream ack) (ackConsumer ack)
    (seqStream (ackSeqNum ack)) = Some msg →
  AckSync acked msg = None →
  lookupInflight (ProcessMsgACK AckSync c acked ack).1.2 stream k seq =
    if decide (stream = ackStream ack ∧ k = ackConsumer ack ∧
               seq = seqStream (ackSeqNum ack))
    then None else lookupInflight c stream k seq.
Proof.
  unfold lookupInflight, ProcessMsgACK. intros Hl Hok.
  destruct (inflightPerStream c !! ackStream ack) as [ps|] eqn:Hps;
    [|done]. simpl in Hl.
  destruct (consumers ps !! ackConsumer ack) as [pc|] eqn:Hpc; [|done].
  simpl in Hl. rewrite Hl, Hok. simpl.
  destruct (decide (stream = ackStream ack)) as [->|Hs].
  2:{ rewrite lookup_insert_ne by done. case_decide; [|done]. tauto. }
  rewrite lookup_insert_eq, Hps; simpl.
  destruct (decide (k = ackConsumer ack)) as [->|Hk].
  2:{ rewrite lookup_insert_ne by done. case_decide; [tauto|done]. }
  rewrite lookup_insert_eq, Hpc; simpl.
  destruct (decide (seq = seqStream (ackSeqNum ack))) as [->|Hq].
  { rewrite lookup_delete_eq. by case_decide; [|tauto]. }
  rewrite lookup_delete_ne by done. case_decide; [tauto|done].
Qed.

(** What [ProcessMsgACK] adds to the trace of [AckSync] calls: nothing, or
    the message on record under the key of the ACK. *)
Lemma ProcessMsgACK_acked c acked ack :
  (ProcessMsgACK AckSync c acked ack).2 = acked ∨
  ∃ msg,
    lookupInflight c (ackStream ack) (ackConsumer ack)
      (seqStream (ackSeqNum ack)) = Some msg ∧
    (ProcessMsgACK AckSync c acked ack).2 = acked ++ [msg].
Proof.
  destruct (lookupInflight c (ackStream ack) (ackConsumer ack)
              (seqStream (ackSeqNum ack))) as [msg|] eqn:Hl.
  - destruct (ProcessMsgACK_found AckSync c acked ack msg Hl)
      as (c' & -> & _). right. by exists msg.
  - destruct (ProcessMsgACK_missing AckSync c acked ack Hl) as (err & ->).
    by left.
Qed.

(** The entries after any [ProcessMsgACK] are entries that were there. *)
Lemma lookupInflight_ack_subset c acked ack stream k seq msg :
  lookupInflight (ProcessMsgACK AckSync c acked ack).1.2 stream k seq
    = Some msg →
  lookupInflight c stream k seq = Some msg.
Proof.
  destruct (lookupInflight c (ackStream ack) (ackConsumer ack)
              (seqStream (ackSeqNum ack))) as [m|] eqn:Hl.
  - destruct (AckSync acked m) as [err|] eqn:Hack.
    + destruct (ProcessMsgACK_found AckSync c acked ack m Hl)
        as (c' & Hrun & _ & Hcase).
      rewrite Hack in Hcase. subst c'. by rewrite Hrun.
    + rewrite (lookupInflight_after_ack c acked ack m) by done.
      by case_decide.
  - by destruct (ProcessMsgACK_missing AckSync c acked ack Hl) as (err & ->).
Qed.

(** The keys agree with the metadata initially, after a record and after
    an ACK. *)
Lemma wellKeyed_init subj cons :
  wellKeyed cons (getJetStreamInflightMsgProcessor subj cons).
Proof.
  intros stream k seq msg. unfold lookupInflight; simpl.
  by rewrite lookup_empty.
Qed.

Lemma wellKeyed_record cons c msg :
  consumer c = cons → wellKeyed cons c →
  wellKeyed cons (ProcessInflightMessage c msg).2.
Proof.
  intros Hc Hwk.
  destruct (msgMetadata msg) as [err|meta] eqn:Hmeta.
  { unfold ProcessInflightMessage. by rewrite Hmeta. }
  destruct (decide (consumer c = mdConsumer meta)) as [Heq|Hne].
  2:{ by rewrite (ProcessInflightMessage_mismatch c msg meta). }
  intros stream k seq m.
  rewrite (lookupInflight_after_record c msg meta) by done.
  case_decide as Hkey; [|by apply Hwk].
  destruct Hkey as (-> & -> & ->). intros [= <-].
  exists meta. repeat split; congruence.
Qed.

Lemma wellKeyed_ack cons c acked ack :
  wellKeyed cons c →
  wellKeyed cons (ProcessMsgACK AckSync c acked ack).1.2.
Proof.
  intros Hwk stream k seq msg Hl.
  by apply Hwk, (lookupInflight_ack_subset c acked ack).
Qed.

End InflightEntries.

Section InflightExtras.

Import Handlers.

Implicit Types (c : jetStreamInflightMsgProcessorImpl) (msg : Msg).
Implicit Types (meta : MsgMetadata) (ack : AckIndication).

Variable AckSync : AckSyncOracle.

(** X1. After an accepted record the entry under the key of the message
    is the message, and the entry under every other stream, consumer or
    sequence is what it was before. *)
Theorem record_touches_only_its_key c msg meta :
  msgMetadata msg = inr meta →
  consumer c = mdConsumer meta →
  lookupInflight (ProcessInflightMessage c msg).2 (mdStream meta)
    (mdConsumer meta) (seqStream (mdSequence meta)) = Some msg ∧
  ∀ stream k seq,
    (stream, k, seq) ≠
      (mdStream meta, mdConsumer meta, seqStream (mdSequence meta)) →
    lookupInflight (ProcessInflightMessage c msg).2 stream k seq
      = lookupInflight c stream k seq.
Proof.
  intros Hmeta Hcons. split.
  - rewrite (lookupInflight_after_record c msg meta) by done.
    by case_decide; [|tauto].
  - intros stream k seq Hne.
    rewrite (lookupInflight_after_record c msg meta) by done.
    case_decide as Hkey; [|done].
    destruct Hkey as (-> & -> & ->). done.
Qed.

(** X2. Whatever the broker answers, [ProcessMsgACK] leaves the entry
    under every key other than the one of the ACK as it was. *)
Theorem ack_touches_only_its_key c acked ack stream k seq :
  (stream, k, seq) ≠
    (ackStream ack, ackConsumer ack, seqStream (ackSeqNum ack)) →
  lookupInflight (ProcessMsgACK AckSync c acked ack).1.2 stream k seq
    = lookupInflight c stream k seq.
Proof.
  intros Hne.
  destruct (lookupInflight c (ackStream ack) (ackConsumer ack)
              (seqStream (ackSeqNum ack))) as [m|] eqn:Hl.
  - destruct (AckSync acked m) as [err|] eqn:Hack.
    + destruct (ProcessMsgACK_found AckSync c acked ack m Hl)
        as (c' & Hrun & _ & Hcase).
      rewrite Hack in Hcase. subst c'. by rewrite Hrun.
    + rewrite (lookupInflight_after_ack AckSync c acked ack m) by done.
      case_decide as Hkey; [|done].
      destruct Hkey as (-> & -> & ->). done.
  - by destruct (ProcessMsgACK_missing AckSync c acked ack Hl) as (err & ->).
Qed.

(** X3. Once an ACK has removed its message, the same ACK processed again
    is refused with [no records related message [seq] for consumer@stream]
    and the broker is not called a second time: the records of the stream
    and of the consumer stay in the map when their last message goes. *)
Theorem second_ack_finds_nothing c acked ack msg :
  lookupInflight c (ackStream ack) (ackConsumer ack)
    (seqStream (ackSeqNum ack)) = Some msg →
  AckSync acked msg = None →
  ProcessMsgACK AckSync (ProcessMsgACK AckSync c acked ack).1.2
    (ProcessMsgACK AckSync c acked ack).2 ack =
    (Some ("no records related message [" +:+
           fmt_d (seqStream (ackSeqNum ack)) +:+ "] for " +:+
           ackConsumer ack +:+ "@" +:+ ackStream ack),
     (ProcessMsgACK AckSync c acked ack).1.2, acked ++ [msg]).
Proof.
  intros Hl Hok.
  assert ((ProcessMsgACK AckSync c acked ack).2 = acked ++ [msg]) as Hacked.
  { destruct (ProcessMsgACK_found AckSync c acked ack msg Hl)
      as (c' & -> & _). done. }
  rewrite Hacked. unfold lookupInflight in Hl.
  destruct (inflightPerStream c !! ackStream ack) as [ps|] eqn:Hps;
    [|done]. simpl in Hl.
  destruct (consumers ps !! ackConsumer ack) as [pc|] eqn:Hpc; [|done].
  simpl in Hl.
  assert ((ProcessMsgACK AckSync c acked ack).1.2 =
          withInflightPerStream c
            (<[ackStream ack :=
                 {| consumers :=
                      <[ackConsumer ack :=
                          {| inflight :=
                               delete (seqStream (ackSeqNum ack))
                                 (inflight pc) |}]> (consumers ps) |}]>
               (inflightPerStream c))) as ->.
  { unfold ProcessMsgACK. by rewrite Hps, Hpc, Hl, Hok. }
  unfold ProcessMsgACK. simpl.
  rewrite lookup_insert_eq. simpl.
  rewrite lookup_insert_eq. simpl.
  by rewrite lookup_delete_eq.
Qed.

(** X4. In every state the tracker can reach, each message on record sits
    under the stream, consumer and sequence its own metadata gives, and
    every message the broker was asked to ack-sync carries metadata naming
    the consumer the tracker is bound to. *)
Theorem reachable_entries_match_metadata subj cons w :
  reachable AckSync subj cons w →
  wellKeyed cons w.1 ∧ Forall (deliveredTo cons) w.2.
Proof.
  induction 1 as [|w w' Hreach [IHk IHa] Hstep].
  - split; [apply wellKeyed_init|constructor].
  - pose proof (reachable_consumersBound AckSync _ _ _ Hreach) as [Hc _].
    destruct Hstep as [c acked msg|c acked ack]; simpl in *.
    + split; [by apply wellKeyed_record|done].
    + split; [by apply wellKeyed_ack|].
      destruct (ProcessMsgACK_acked AckSync c acked ack)
        as [->|(msg & Hl & ->)]; [done|].
      apply Forall_app. split; [done|]. constructor; [|constructor].
      destruct (IHk _ _ _ _ Hl) as (meta & Hm & _ & Hk & _ & Hcons).
      exists meta. split; congruence.
Qed.

(** X5. An accepted record adds one to the number of messages on record
    for its stream and consumer when its key was free, and leaves the
    number as it was when it replaces a message (a redelivery). *)
Theorem record_counts_each_key_once c msg meta :
  msgMetadata msg = inr meta →
  consumer c = mdConsumer meta →
  pendingCount (ProcessInflightMessage c msg).2 (mdStream meta)
    (mdConsumer meta) =
    match lookupInflight c (mdStream meta) (mdConsumer meta)
            (seqStream (mdSequence meta)) with
    | Some _ => pendingCount c (mdStream meta) (mdConsumer meta)
    | None => S (pendingCount c (mdStream meta) (mdConsumer meta))
    end.
Proof.
  intros Hmeta Hcons. unfold ProcessInflightMessage. rewrite Hmeta.
  case_decide as Hne; [done|]. clear Hne. rewrite Hcons.
  unfold pendingCount, lookupInflight; simpl.
  rewrite lookup_insert_eq; simpl. rewrite lookup_insert_eq; simpl.
  rewrite map_size_insert.
  destruct (inflightPerStream c !! mdStream meta) as [ps|]; simpl.
  2:{ rewrite !lookup_empty. simpl.
      by rewrite lookup_empty, map_size_empty. }
  destruct (consumers ps !! mdConsumer meta) as [pc|]; simpl.
  2:{ by rewrite lookup_empty, map_size_empty. }
  by destruct (inflight pc !! seqStream (mdSequence meta)).
Qed.

(** X6. An ACK that found its message and was accepted by the broker
    takes exactly one message off the record of its stream and consumer;
    one the broker refused takes none. *)
Theorem ack_releases_one_entry c acked ack msg :
  lookupInflight c (ackStream ack) (ackConsumer ack)
    (seqStream (ackSeqNum ack)) = Some msg →
  pendingCount c (ackStream ack) (ackConsumer ack) =
    match AckSync acked msg with
    | None =>
      S (pendingCount (ProcessMsgACK AckSync c acked ack).1.2
           (ackStream ack) (ackConsumer ack))
    | Some _ =>
      pendingCount (ProcessMsgACK AckSync c acked ack).1.2
        (ackStream ack) (ackConsumer ack)
    end.
Proof.
  unfold lookupInflight, ProcessMsgACK, pendingCount. intros Hl.
  destruct (inflightPerStream c !! ackStream ack) as [ps|] eqn:Hps;
    [|done]. simpl in Hl.
  destruct (consumers ps !! ackConsumer ack) as [pc|] eqn:Hpc; [|done].
  simpl in Hl. rewrite Hl.
  destruct (AckSync acked msg) as [err|]; simpl.
  - by rewrite Hps, Hpc.
  - rewrite lookup_insert_eq; simpl. rewrite lookup_insert_eq; simpl.
    rewrite map_size_delete, Hl.
    assert (size (inflight pc) ≠ 0) as Hsz.
    { intros Hz. apply map_size_empty_inv in Hz.
      rewrite Hz, lookup_empty in Hl. done. }
    lia.
Qed.

End InflightExtras.

(* ===================================================================== *)
(** ** The task handlers *)
(* ===================================================================== *)

Section HandlerExtras.

Import Transport Handlers Samples MoreSamples.

Implicit Types (c : jetStreamInflightMsgProcessorImpl) (param : Param).

Variable AckSync : AckSyncOracle.

(** X7. A handler given a request of its own kind applies it to the
    tracker, as [ProcessInflightMessage] or [ProcessMsgACK] does, and then,
    when the request is blocking, hands that very error to the result
    callback once: if the caller still listens the handler returns it, and
    if the caller has left the handler never returns, the tracker already
    changed. A request that is not blocking calls nobody back. A handler
    whose error is not nil left the tracker as it was. A parameter of any
    other type is refused with the text that names its type, the tracker
    and the broker untouched and nobody called back. *)
Theorem handlers_call_back_once_iff_blocking c acked param listening :
  (∀ blocking msg,
     param = ParamTask (jsInflightCtrlRecordNewMsg blocking msg) →
     runError (processInflightMessage c param listening)
       = (ProcessInflightMessage c msg).1 ∧
     runState (processInflightMessage c param listening)
       = (ProcessInflightMessage c msg).2 ∧
     runCalledBack (processInflightMessage c param listening)
       = (if blocking && listening
          then [(ProcessInflightMessage c msg).1] else []) ∧
     runReturned (processInflightMessage c param listening)
       = negb blocking || listening) ∧
  ((∀ blocking msg,
      param ≠ ParamTask (jsInflightCtrlRecordNewMsg blocking msg)) →
   processInflightMessage c param listening =
     HandlerReturned
       (Some ("can not process unknown type " +:+ typeOf param +:+
              " for record inflight message")) c []) ∧
  (runError (processInflightMessage c param listening) ≠ None →
   runState (processInflightMessage c param listening) = c) ∧
  (∀ blocking ack,
     param = ParamTask (jsInflightCtrlRecordACK blocking ack) →
     runError (processMsgACK AckSync c acked param listening)
       = (ProcessMsgACK AckSync c acked ack).1.1 ∧
     runState (processMsgACK AckSync c acked param listening)
       = ((ProcessMsgACK AckSync c acked ack).1.2,
          (ProcessMsgACK AckSync c acked ack).2) ∧
     runCalledBack (processMsgACK AckSync c acked param listening)
       = (if blocking && listening
          then [(ProcessMsgACK AckSync c acked ack).1.1] else []) ∧
     runReturned (processMsgACK AckSync c acked param listening)
       = negb blocking || listening) ∧
  ((∀ blocking ack,
      param ≠ ParamTask (jsInflightCtrlRecordACK blocking ack)) →
   processMsgACK AckSync c acked param listening =
     HandlerReturned
       (Some ("can not process unknown type " +:+ typeOf param +:+
              " for handle new ACK message")) (c, acked) []) ∧
  (runError (processMsgACK AckSync c acked param listening) ≠ None →
   (runState (processMsgACK AckSync c acked param listening)).1 = c).
Proof.
  split; [|split; [|split; [|split; [|split]]]].
  - intros blocking msg ->. unfold processInflightMessage.
    destruct (ProcessInflightMessage c msg) as [r c'].
    by destruct blocking, listening.
  - intros Hother. unfold processInflightMessage.
    destruct param as [[b msg|b ack]|name]; simpl; try done.
    by destruct (Hother b msg).
  - unfold processInflightMessage.
    destruct param as [[b msg|b ack]|name]; simpl; try done.
    destruct (ProcessInflightMessage c msg) as [[err|] c'] eqn:Hrun.
    + apply ProcessInflightMessage_reject in Hrun. subst c'.
      by destruct b, listening.
    + by destruct b, listening.
  - intros blocking ack ->. unfold processMsgACK.
    destruct (ProcessMsgACK AckSync c acked ack) as [[r c'] a'].
    by destruct blocking, listening.
  - intros Hother. unfold processMsgACK.
    destruct param as [[b msg|b ack]|name]; simpl; try done.
    by destruct (Hother b ack).
  - unfold processMsgACK.
    destruct param as [[b msg|b ack]|name]; simpl; try done.
    destruct (lookupInflight c (ackStream ack) (ackConsumer ack)
                (seqStream (ackSeqNum ack))) as [m|] eqn:Hl.
    + destruct (ProcessMsgACK_found AckSync c acked ack m Hl)
        as (c' & -> & _ & Hcase).
      destruct (AckSync acked m); [subst c'|];
        by destruct b, listening.
    + destruct (ProcessMsgACK_missing AckSync c acked ack Hl)
        as (err & ->).
      by destruct b, listening.
Qed.

End HandlerExtras.

Section HandlerScenarios.

Import Transport Handlers Samples MoreSamples.

(** An ACK request that reaches the handler of records is refused by the
    name of its type; and a blocking record whose caller has left leaves
    the handler waiting, message 43 already on record. *)
Lemma handlers_call_back_once_iff_blocking_witness :
  processInflightMessage trackerC42
    (ParamTask (jsInflightCtrlRecordACK true ack42)) true =
    HandlerReturned
      (Some ("can not process unknown type " +:+
             "dataplane.jsInflightCtrlRecordACK" +:+
             " for record inflight message")) trackerC42 [] ∧
  runReturned
    (processInflightMessage trackerC42
       (ParamTask (jsInflightCtrlRecordNewMsg true msg43)) false) = false ∧
  runState
    (processInflightMessage trackerC42
       (ParamTask (jsInflightCtrlRecordNewMsg true msg43)) false)
    = trackerC4243.
Proof.
  split.
  - apply (proj1 (proj2 (handlers_call_back_once_iff_blocking brokerUp
                           trackerC42 []
                           (ParamTask (jsInflightCtrlRecordACK true ack42))
                           true))).
    intros blocking msg. discriminate.
  - destruct (proj1 (handlers_call_back_once_iff_blocking brokerUp
                       trackerC42 []
                       (ParamTask (jsInflightCtrlRecordNewMsg true msg43))
                       false) true msg43 eq_refl)
      as (_ & Hstate & _ & Hret).
    split; [exact Hret|exact Hstate].
Defined.

End HandlerScenarios.

(* ===================================================================== *)
(** ** Further properties of the publisher, subscriber and dispatcher *)
(* ===================================================================== *)

Section TransportExtras.

Import Transport Reader Handlers Samples MoreSamples.

Implicit Types (env : Env) (d : pushMessageDispatcher).
Implicit Types (r : jetStreamPushSubscriberImpl) (trace : list Event).

(** X8. [Publish] returns nil only when the log tags were copied,
    [PublishAsync] handed back a future, and the wait on it ended with a
    value from an open acknowledgement channel (or with a nil error from
    an open error channel); a failed copy, a failed [PublishAsync], a
    closed channel and a cancelled context all give an error. *)
Theorem Publish_nil_iff (penv : PublishEnv) subject msg :
  Publish penv subject msg = None ↔
  pubUpdateLogTags penv = None ∧
  ∃ ack,
    PublishAsync penv subject msg = inr ack ∧
    ((∃ goodSig, await penv ack = RecvOk goodSig true) ∨
     await penv ack = RecvErr None true).
Proof.
  unfold Publish. split.
  - destruct (pubUpdateLogTags penv); [done|].
    destruct (PublishAsync penv subject msg) as [err|ack]; [done|].
    intros Hres. split; [done|]. exists ack. split; [done|].
    destruct (await penv ack) as [sig [|]|[e|] [|]|e]; simpl in Hres;
      try done; eauto.
  - intros (-> & ack & -> & [[sig ->]| ->]); done.
Qed.

(** X9. An error [Publish] returns is never made up from another one: it
    is the error of the log-tag copy, of [PublishAsync], of the broker or
    of the context as it came, or one of the two texts for a closed
    channel. *)
Theorem Publish_error_origin (penv : PublishEnv) subject msg err :
  Publish penv subject msg = Some err →
  pubUpdateLogTags penv = Some err ∨
  PublishAsync penv subject msg = inl err ∨
  (∃ ack, PublishAsync penv subject msg = inr ack ∧
     (await penv ack = RecvErr (Some err) true ∨
      await penv ack = CtxDone err ∨
      ((∃ goodSig, await penv ack = RecvOk goodSig false) ∧
       err = "reading nats.PubAckFuture OK channel failure") ∨
      ((∃ txErr, await penv ack = RecvErr txErr false) ∧
       err = "reading nats.PubAckFuture error channel failure"))).
Proof.
  unfold Publish.
  destruct (pubUpdateLogTags penv) as [e|]; [intros [= ->]; by left|].
  destruct (PublishAsync penv subject msg) as [e|ack];
    [intros [= ->]; right; by left|].
  intros Hres. right; right. exists ack. split; [done|].
  destruct (await penv ack) as [sig [|]|[e|] [|]|e]; simpl in Hres;
    simplify_eq; eauto 6.
Qed.

(** X10. Once [StartReading] has succeeded, the subscriber reads with the
    callbacks of that call, and every later [StartReading] fails: it
    returns an error, leaves the subscriber and its callbacks as they are
    and starts no second reading goroutine. *)
Theorem StartReading_only_once env r forwardCB alertCB trace :
  (StartReading env r forwardCB alertCB trace).1.1 = None →
  reading (StartReading env r forwardCB alertCB trace).1.2 = true ∧
  forwardMsg (StartReading env r forwardCB alertCB trace).1.2
    = Some forwardCB ∧
  spawns (StartReading env r forwardCB alertCB trace).2 = S (spawns trace) ∧
  ∀ env' forwardCB' alertCB' trace',
    ∃ err,
      StartReading env' (StartReading env r forwardCB alertCB trace).1.2
        forwardCB' alertCB' trace'
      = (Some err, (StartReading env r forwardCB alertCB trace).1.2,
         trace' ++ [EvUpdateLogTags]).
Proof.
  destruct (StartReading env r forwardCB alertCB trace)
    as [[res r'] tr'] eqn:Hrun.
  simpl. intros ->. unfold StartReading in Hrun.
  destruct (UpdateLogTags env trace); [done|].
  destruct (reading r); [done|]. injection Hrun as <- <-.
  split; [done|]. split; [done|]. split.
  { unfold spawns. rewrite !List.filter_app, !length_app. simpl. lia. }
  intros env' forwardCB' alertCB' trace'. unfold StartReading. simpl.
  destruct (UpdateLogTags env' trace'); eauto.
Qed.

End TransportExtras.

Section DispatcherExtras.

Import Transport Reader Handlers.

Implicit Types (env : Env) (d : pushMessageDispatcher).
Implicit Types (trace : list Event).

Lemma spawns_app trace trace' :
  spawns (trace ++ trace') = spawns trace + spawns trace'.
Proof. unfold spawns. by rewrite List.filter_app, length_app. Qed.

(** One [Start] on a dispatcher that is neither started nor reading: all
    four steps and nil, or an error with no reading goroutine started. *)
Lemma Start_unstarted env d msgOutput alertCB trace :
  started d = false →
  reading (subscriber d) = false →
  ((Start env d msgOutput alertCB trace).1.1 = None ∧
   started (Start env d msgOutput alertCB trace).1.2 = true ∧
   reading (subscriber (Start env d msgOutput alertCB trace).1.2) = true ∧
   spawns (Start env d msgOutput alertCB trace).2 = S (spawns trace)) ∨
  ((Start env d msgOutput alertCB trace).1.1 ≠ None ∧
   started (Start env d msgOutput alertCB trace).1.2 = false ∧
   reading (subscriber (Start env d msgOutput alertCB trace).1.2) = false ∧
   spawns (Start env d msgOutput alertCB trace).2 = spawns trace).
Proof.
  intros Hd Hr. unfold Start. rewrite Hd.
  destruct (StartEventLoop env trace).
  { right. simpl. rewrite spawns_app.
    repeat split; try done; unfold spawns; simpl; lia. }
  destruct (SubscribeForACKs env _).
  { right. simpl. rewrite !spawns_app.
    repeat split; try done; unfold spawns; simpl; lia. }
  unfold StartReading. rewrite Hr.
  destruct (UpdateLogTags env _); simpl.
  - right. rewrite !spawns_app.
    repeat split; try done; unfold spawns; simpl; lia.
  - left. rewrite !spawns_app.
    repeat split; try done; unfold spawns; simpl; lia.
Qed.

(** Every [Start] on a started dispatcher is turned away. *)
Lemma StartMany_started calls d trace :
  started d = true →
  StartMany calls d trace
    = (repeat (Some "already started") (length calls), d, trace).
Proof.
  intros Hd. induction calls as [|call rest IH]; [done|].
  simpl. rewrite Start_guard by done. by rewrite IH.
Qed.

(** X11. [Start] on a dispatcher that is not started calls the task
    processor, the ACK receiver and the subscriber in that order and stops
    at the first that fails: when [StartEventLoop] fails nothing else is
    called, when [SubscribeForACKs] fails the subscriber is not started,
    and when the subscriber cannot copy its log tags or reads already no
    reading goroutine is started; each time the error is handed back as it
    is and the dispatcher is as before. The calls made are thus a prefix
    of the four steps of a full start, and all four exactly when [Start]
    returns nil. *)
Theorem Start_stops_at_first_failure env d msgOutput alertCB trace :
  started d = false →
  (∃ added,
     (Start env d msgOutput alertCB trace).2 = trace ++ added ∧
     added `prefix_of`
       [EvStartEventLoop; EvSubscribeForACKs; EvUpdateLogTags;
        EvSpawnReader] ∧
     (added = [EvStartEventLoop; EvSubscribeForACKs; EvUpdateLogTags;
               EvSpawnReader] ↔
      (Start env d msgOutput alertCB trace).1.1 = None)) ∧
  (∀ err,
     StartEventLoop env trace = Some err →
     Start env d msgOutput alertCB trace
       = (Some err, d, trace ++ [EvStartEventLoop])) ∧
  (∀ err,
     StartEventLoop env trace = None →
     SubscribeForACKs env (trace ++ [EvStartEventLoop]) = Some err →
     Start env d msgOutput alertCB trace
       = (Some err, d, trace ++ [EvStartEventLoop; EvSubscribeForACKs])) ∧
  (∀ err,
     StartEventLoop env trace = None →
     SubscribeForACKs env (trace ++ [EvStartEventLoop]) = None →
     UpdateLogTags env (trace ++ [EvStartEventLoop; EvSubscribeForACKs])
       = Some err →
     Start env d msgOutput alertCB trace
       = (Some err, d,
          trace ++ [EvStartEventLoop; EvSubscribeForACKs;
                    EvUpdateLogTags])) ∧
  (StartEventLoop env trace = None →
   SubscribeForACKs env (trace ++ [EvStartEventLoop]) = None →
   UpdateLogTags env (trace ++ [EvStartEventLoop; EvSubscribeForACKs])
     = None →
   Start env d msgOutput alertCB trace =
     if reading (subscriber d) then
       (Some "already reading", d,
        trace ++ [EvStartEventLoop; EvSubscribeForACKs; EvUpdateLogTags])
     else
       (None,
        {| started := true;
           subscriber :=
             {| reading := true;
                forwardMsg := Some (forwardCB env msgOutput);
                errorCB := Some alertCB |} |},
        trace ++ [EvStartEventLoop; EvSubscribeForACKs; EvUpdateLogTags;
                  EvSpawnReader])).
Proof.
  intros Hd.
  assert ({| started := started d; subscriber := subscriber d |} = d)
    as Heta by by destruct d.
  split; [|split; [|split; [|split]]].
  - unfold Start. rewrite Hd.
    destruct (StartEventLoop env trace).
    { exists [EvStartEventLoop]. simpl. split; [done|].
      split; [by eexists|done]. }
    destruct (SubscribeForACKs env _).
    { exists [EvStartEventLoop; EvSubscribeForACKs]. simpl.
      rewrite <- app_assoc. split; [done|]. split; [by eexists|done]. }
    unfold StartReading.
    destruct (UpdateLogTags env _); simpl.
    { exists [EvStartEventLoop; EvSubscribeForACKs; EvUpdateLogTags].
      rewrite <- !app_assoc. split; [done|]. split; [by eexists|done]. }
    destruct (reading (subscriber d)); simpl.
    + exists [EvStartEventLoop; EvSubscribeForACKs; EvUpdateLogTags].
      rewrite <- !app_assoc. split; [done|]. split; [by eexists|done].
    + exists [EvStartEventLoop; EvSubscribeForACKs; EvUpdateLogTags;
              EvSpawnReader].
      rewrite <- !app_assoc. split; [done|]. split; [by exists []|done].
  - intros err Htp. unfold Start. by rewrite Hd, Htp.
  - intros err Htp Hack. unfold Start. rewrite Hd, Htp, Hack.
    by rewrite <- app_assoc.
  - intros err Htp Hack Htags. unfold Start, StartReading.
    rewrite Hd, Htp, Hack. rewrite <- !app_assoc. simpl.
    rewrite Htags. simpl. by rewrite <- Hd, Heta.
  - intros Htp Hack Htags. unfold Start, StartReading.
    rewrite Hd, Htp, Hack. rewrite <- !app_assoc. simpl.
    rewrite Htags.
    destruct (reading (subscriber d)); simpl.
    + by rewrite <- Hd, Heta.
    + done.
Qed.

(** X12. However often [Start] is called on a dispatcher that was built
    fresh, the results are a run of errors, then at most one nil, then
    nothing but [already started]; the reading goroutine is started once
    when a call succeeded and never otherwise; and the dispatcher is
    started exactly when its subscriber reads. *)
Theorem StartMany_succeeds_at_most_once calls d trace :
  started d = false →
  reading (subscriber d) = false →
  started (StartMany calls d trace).1.2
    = reading (subscriber (StartMany calls d trace).1.2) ∧
  ∃ fails,
    Forall (λ r, r ≠ None) fails ∧
    (((StartMany calls d trace).1.1 = fails ∧
      started (StartMany calls d trace).1.2 = false ∧
      spawns (StartMany calls d trace).2 = spawns trace) ∨
     (∃ n,
        (StartMany calls d trace).1.1
          = fails ++ None :: repeat (Some "already started") n ∧
        started (StartMany calls d trace).1.2 = true ∧
        spawns (StartMany calls d trace).2 = S (spawns trace))).
Proof.
  revert d trace. induction calls as [|call rest IH]; intros d trace Hd Hr.
  { simpl. split; [congruence|]. exists []. split; [constructor|]. by left. }
  simpl.
  destruct (Start_unstarted (callEnv call) d (callSink call)
              (callAlert call) trace Hd Hr)
    as [(Hres & Hd' & Hr' & Hsp)|(Hres & Hd' & Hr' & Hsp)];
    destruct (Start (callEnv call) d (callSink call) (callAlert call) trace)
      as [[res d'] trace'];
    simpl in *.
  - rewrite (StartMany_started rest d' trace' Hd'). simpl.
    split; [congruence|]. exists []. split; [constructor|]. right.
    exists (length rest). by rewrite Hres.
  - destruct (IH d' trace' Hd' Hr') as [Heq (fails & Hfails & Hcase)].
    destruct (StartMany rest d' trace') as [[rs d''] trace''].
    simpl in *. split; [done|].
    exists (res :: fails). split; [by constructor|].
    destruct Hcase as [(-> & Hs & Hn)|(n & -> & Hs & Hn)].
    + left. repeat split; [done|congruence].
    + right. exists n. repeat split; [done|congruence].
Qed.

End DispatcherExtras.

(* ===================================================================== *)
(** ** The reading goroutine *)
(* ===================================================================== *)

Section ReaderExtras.

Import Transport Reader Handlers.

Implicit Types (env : Env) (trace : list Event) (log : list ReaderAction).
Implicit Types (deliveries : list (option Msg)).

Lemma forwarded_app log log' :
  forwarded (log ++ log') = forwarded log ++ forwarded log'.
Proof. apply omap_app. Qed.

Lemma reads_app log log' : reads (log ++ log') = reads log + reads log'.
Proof. unfold reads. by rewrite List.filter_app, length_app. Qed.

(** The loop forwards every message it was given, reads once for each
    delivery and once more, and ends on the alert for the read error. *)
Lemma readLoop_log forwardMsg errorCB deliveries readErr trace log :
  ∃ steps,
    (readLoop forwardMsg errorCB deliveries readErr trace log).2
      = log ++ steps ++ [ActNextMsg; ActAlert readErr] ∧
    forwarded steps = omap id deliveries ∧
    reads steps = length deliveries.
Proof.
  revert trace log.
  induction deliveries as [|[newMsg|] rest IH]; intros trace log; simpl.
  - by exists [].
  - destruct (forwardMsg newMsg trace) as [[err|] trace'].
    + destruct (IH (trace' ++ errorCB err)
                  (log ++ [ActNextMsg; ActForward newMsg; ActAlert err]))
        as (steps & -> & Hf & Hr).
      exists ([ActNextMsg; ActForward newMsg; ActAlert err] ++ steps).
      rewrite <- !app_assoc. split; [done|].
      rewrite forwarded_app, reads_app, Hf, Hr. done.
    + destruct (IH trace' (log ++ [ActNextMsg; ActForward newMsg]))
        as (steps & -> & Hf & Hr).
      exists ([ActNextMsg; ActForward newMsg] ++ steps).
      rewrite <- !app_assoc. split; [done|].
      rewrite forwarded_app, reads_app, Hf, Hr. done.
  - destruct (IH trace (log ++ [ActNextMsg])) as (steps & -> & Hf & Hr).
    exists ([ActNextMsg] ++ steps).
    rewrite <- !app_assoc. split; [done|].
    rewrite forwarded_app, reads_app, Hf, Hr. done.
Qed.

(** The steps of the loop are added to the log it was given and do not
    depend on it. *)
Lemma readLoop_prefix forwardMsg errorCB deliveries readErr trace log :
  readLoop forwardMsg errorCB deliveries readErr trace log =
    ((readLoop forwardMsg errorCB deliveries readErr trace []).1,
     log ++ (readLoop forwardMsg errorCB deliveries readErr trace []).2).
Proof.
  revert trace log.
  induction deliveries as [|[newMsg|] rest IH]; intros trace log; simpl.
  - done.
  - destruct (forwardMsg newMsg trace) as [[err|] trace'].
    + rewrite (IH _ (log ++ _)).
      rewrite (IH _ [ActNextMsg; ActForward newMsg; ActAlert err]).
      simpl. by rewrite <- app_assoc.
    + rewrite (IH _ (log ++ _)).
      rewrite (IH _ [ActNextMsg; ActForward newMsg]).
      simpl. by rewrite <- app_assoc.
  - rewrite (IH _ (log ++ _)), (IH _ [ActNextMsg]).
    simpl. by rewrite <- app_assoc.
Qed.

(** X13. The reading goroutine hands the forward callback every message
    the broker delivered, each once and in the order of delivery, whatever
    the callback returns. Delivery by delivery: it reads, forwards the
    message, and when the forward failed raises one alert with the error
    of the forward, whose calls come after those of the forward; then it
    goes on with the next delivery. A nil message is read and skipped.
    When nothing is left but the read error, that error is alerted and the
    goroutine cleans up. *)
Theorem reader_forwards_every_delivery forwardMsg errorCB deliveries
    readErr trace :
  forwarded (readerGoroutine forwardMsg errorCB deliveries readErr trace).2
    = omap id deliveries ∧
  (∀ newMsg rest,
     deliveries = Some newMsg :: rest →
     readerGoroutine forwardMsg errorCB deliveries readErr trace =
       ((readerGoroutine forwardMsg errorCB rest readErr
           (match (forwardMsg newMsg trace).1 with
            | Some err => (forwardMsg newMsg trace).2 ++ errorCB err
            | None => (forwardMsg newMsg trace).2
            end)).1,
        [ActNextMsg; ActForward newMsg] ++
        match (forwardMsg newMsg trace).1 with
        | Some err => [ActAlert err]
        | None => []
        end ++
        (readerGoroutine forwardMsg errorCB rest readErr
           (match (forwardMsg newMsg trace).1 with
            | Some err => (forwardMsg newMsg trace).2 ++ errorCB err
            | None => (forwardMsg newMsg trace).2
            end)).2)) ∧
  (∀ rest,
     deliveries = None :: rest →
     readerGoroutine forwardMsg errorCB deliveries readErr trace =
       ((readerGoroutine forwardMsg errorCB rest readErr trace).1,
        ActNextMsg ::
        (readerGoroutine forwardMsg errorCB rest readErr trace).2)) ∧
  (deliveries = [] →
   readerGoroutine forwardMsg errorCB deliveries readErr trace =
     (trace ++ errorCB readErr,
      [ActNextMsg; ActAlert readErr; ActDrain; ActUnsubscribe; ActDone])).
Proof.
  split; [|split; [|split]].
  - unfold readerGoroutine.
    destruct (readLoop_log forwardMsg errorCB deliveries readErr trace [])
      as (steps & Hlog & Hf & _).
    destruct (readLoop forwardMsg errorCB deliveries readErr trace [])
      as [trace' log].
    simpl in *. subst log. rewrite !forwarded_app, Hf. simpl.
    by rewrite !app_nil_r.
  - intros newMsg rest ->. unfold readerGoroutine. simpl.
    destruct (forwardMsg newMsg trace) as [[err|] trace']; simpl;
      rewrite readLoop_prefix;
      destruct (readLoop forwardMsg errorCB rest readErr _ [])
        as [trace'' log]; done.
  - intros rest ->. unfold readerGoroutine. simpl.
    rewrite readLoop_prefix.
    by destruct (readLoop forwardMsg errorCB rest readErr trace [])
      as [trace'' log].
  - by intros ->.
Qed.

(** X14. The reading goroutine stops at the first read error: it asks for
    a message once for each delivery and once more, reports that error
    through the alert callback, and then drains the subscription,
    unsubscribes and leaves the wait group, in this order. *)
Theorem reader_stops_at_first_read_error forwardMsg errorCB deliveries
    readErr trace :
  reads (readerGoroutine forwardMsg errorCB deliveries readErr trace).2
    = S (length deliveries) ∧
  ∃ steps,
    (readerGoroutine forwardMsg errorCB deliveries readErr trace).2
      = steps ++ [ActNextMsg; ActAlert readErr;
                  ActDrain; ActUnsubscribe; ActDone].
Proof.
  unfold readerGoroutine.
  destruct (readLoop_log forwardMsg errorCB deliveries readErr trace [])
    as (steps & Hlog & _ & Hr).
  destruct (readLoop forwardMsg errorCB deliveries readErr trace [])
    as [trace' log].
  simpl in *. subst log. split.
  - rewrite !reads_app, Hr. unfold reads; simpl. lia.
  - exists steps. by rewrite <- !app_assoc.
Qed.

(** What the dispatcher's forward callback adds to the trace. *)
Lemma forwardCB_added env msgOutput msg trace :
  (forwardCB env msgOutput msg trace).2 = trace ++ [EvMsgOutput msg] ∨
  (forwardCB env msgOutput msg trace).2
    = trace ++ [EvMsgOutput msg;
                EvSubmit (jsInflightCtrlRecordNewMsg false msg)].
Proof.
  unfold forwardCB. rewrite RecordInflightMessage_nonblocking.
  destruct (msgOutput trace msg); [by left|].
  right. destruct (Submit env _ _); simpl; by rewrite <- app_assoc.
Qed.

Lemma Forwarded_app msgs msgs' evs evs' :
  Forwarded msgs evs → Forwarded msgs' evs' →
  Forwarded (msgs ++ msgs') (evs ++ evs').
Proof. induction 1; intros; simpl; auto using Forwarded. Qed.

(** X15. With the dispatcher's forward callback in the reading goroutine
    and an alert callback that calls no collaborator, the calls made for a
    run of deliveries are, message by message in the order of delivery,
    the call of the client sink followed at most by the non-blocking
    submission of that message's record: no message skips the client, and
    no record is submitted before its message went to the client. *)
Theorem reader_pipeline_order env msgOutput errorCB deliveries readErr
    trace :
  (∀ err, errorCB err = []) →
  ∃ added,
    (readerGoroutine (forwardCB env msgOutput) errorCB deliveries readErr
       trace).1 = trace ++ added ∧
    Forwarded (omap id deliveries) added.
Proof.
  intros Hquiet. unfold readerGoroutine.
  assert (∀ log,
            ∃ added,
              (readLoop (forwardCB env msgOutput) errorCB deliveries
                 readErr trace log).1 = trace ++ added ∧
              Forwarded (omap id deliveries) added) as Hloop.
  { revert trace.
    induction deliveries as [|[newMsg|] rest IH]; intros trace log; simpl.
    - exists []. rewrite Hquiet. split; [done|constructor].
    - pose proof (forwardCB_added env msgOutput newMsg trace) as Hadd.
      destruct (forwardCB env msgOutput newMsg trace) as [[err|] trace'];
        simpl in Hadd; rewrite ?Hquiet, ?app_nil_r;
        match goal with
        | |- context [readLoop _ _ _ _ _ ?l] =>
          destruct (IH trace' l) as (added & -> & Hfw)
        end;
        destruct Hadd as [->| ->]; rewrite <- app_assoc;
        eexists; (split; [reflexivity|]); simpl;
        auto using Forwarded.
    - apply IH. }
  destruct (Hloop []) as (added & Hrun & Hfw).
  destruct (readLoop (forwardCB env msgOutput) errorCB deliveries readErr
              trace []) as [trace' log].
  simpl in *. eauto.
Qed.

(** X16. The requests the dispatcher submits on either path, a record from
    the forward callback or an ACK from the ACK callback, are non-blocking:
    handled by the tracker they invoke no result callback, and the handler
    returns whether or not anybody listens, so the task processor never
    waits on a caller that is not listening. *)
Theorem dispatcher_tasks_never_call_back env msgOutput msg ai trace c
    AckSync acked task :
  (In (EvSubmit task) (forwardCB env msgOutput msg trace).2 ∨
   In (EvSubmit task) (ackCB env ai trace)) →
  ¬ In (EvSubmit task) trace →
  (task = jsInflightCtrlRecordNewMsg false msg ∨
   task = jsInflightCtrlRecordACK false ai) ∧
  (∀ listening,
     runCalledBack (processInflightMessage c (ParamTask task) listening)
       = [] ∧
     runReturned (processInflightMessage c (ParamTask task) listening)
       = true) ∧
  (∀ listening,
     runCalledBack
       (processMsgACK AckSync c acked (ParamTask task) listening) = [] ∧
     runReturned
       (processMsgACK AckSync c acked (ParamTask task) listening) = true).
Proof.
  intros Hin Hnew.
  assert (task = jsInflightCtrlRecordNewMsg false msg ∨
          task = jsInflightCtrlRecordACK false ai) as Htask.
  { destruct Hin as [Hin|Hin].
    - destruct (forwardCB_added env msgOutput msg trace) as [Heq|Heq];
        rewrite Heq in Hin; apply in_app_or in Hin;
        destruct Hin as [Hin|Hin]; try done; simpl in Hin;
        intuition congruence.
    - unfold ackCB, HandlerMsgACK in Hin.
      destruct (Submit env trace _); simpl in Hin;
        apply in_app_or in Hin; destruct Hin as [Hin|Hin]; try done;
        simpl in Hin; intuition congruence. }
  split; [done|].
  destruct Htask as [-> | ->]; simpl.
  - split; [|done]. intros listening.
    by destruct (ProcessInflightMessage c msg).
  - split; [done|]. intros listening.
    by destruct (ProcessMsgACK AckSync c acked ai) as [[] ?].
Qed.

End ReaderExtras.

(* ===================================================================== *)
(** ** Scenarios for the further properties *)
(* ===================================================================== *)

Section ExtraScenarios.

Import Transport Reader Handlers Samples MoreSamples.

(** Message 43 recorded beside message 42: both are on record. *)
Lemma record_touches_only_its_key_witness :
  lookupInflight trackerC4243 "S" "C" 43 = Some msg43 ∧
  lookupInflight trackerC4243 "S" "C" 42 = Some msg42.
Proof.
  destruct (record_touches_only_its_key trackerC42 msg43
              (mkMsgMetadata (mkSequencePair 9 43) "S" "C"))
    as [Hnew Hold]; [reflexivity|reflexivity|].
  split; [exact Hnew|].
  unfold trackerC4243. rewrite (Hold "S" "C" 42%N) by discriminate.
  vm_compute. reflexivity.
Defined.

(** The ACK of message 42 leaves message 43 on record. *)
Lemma ack_touches_only_its_key_witness :
  lookupInflight (ProcessMsgACK brokerUp trackerC4243 [] ack42).1.2
    "S" "C" 43 = Some msg43.
Proof.
  rewrite (ack_touches_only_its_key brokerUp trackerC4243 [] ack42
             "S" "C" 43%N) by discriminate.
  vm_compute. reflexivity.
Defined.

(** Message 42 acknowledged twice. *)
Lemma second_ack_finds_nothing_witness :
  ProcessMsgACK brokerUp (ProcessMsgACK brokerUp trackerC42 [] ack42).1.2
    (ProcessMsgACK brokerUp trackerC42 [] ack42).2 ack42 =
    (Some "no records related message [42] for C@S",
     (ProcessMsgACK brokerUp trackerC42 [] ack42).1.2, [msg42]).
Proof.
  apply (second_ack_finds_nothing brokerUp trackerC42 [] ack42 msg42);
    vm_compute; reflexivity.
Defined.

(** After the record and the ACK of message 42, the one message the
    broker was asked to ack-sync was delivered to [C]. *)
Lemma reachable_entries_match_metadata_witness :
  Forall (deliveredTo "C") (ProcessMsgACK brokerUp trackerC42 [] ack42).2.
Proof.
  apply (reachable_entries_match_metadata brokerUp "orders.new" "C"
           ((ProcessMsgACK brokerUp trackerC42 [] ack42).1.2,
            (ProcessMsgACK brokerUp trackerC42 [] ack42).2)).
  eapply reachable_step;
    [eapply reachable_step;
       [apply reachable_init
       |apply (step_record brokerUp trackerC [] msg42)]
    |apply (step_ack brokerUp trackerC42 [] ack42)].
Defined.

(** One message on record, then two; a redelivery of message 42 keeps it
    at one. *)
Lemma record_counts_each_key_once_witness :
  pendingCount trackerC4243 "S" "C" = 2 ∧
  pendingCount (ProcessInflightMessage trackerC42 msg42').2 "S" "C" = 1.
Proof.
  split.
  - apply (record_counts_each_key_once trackerC42 msg43
             (mkMsgMetadata (mkSequencePair 9 43) "S" "C"));
      reflexivity.
  - apply (record_counts_each_key_once trackerC42 msg42'
             (mkMsgMetadata (mkSequencePair 8 42) "S" "C"));
      reflexivity.
Defined.

(** The ACK of message 42 takes the one message off the record. *)
Lemma ack_releases_one_entry_witness :
  pendingCount trackerC42 "S" "C" =
    S (pendingCount (ProcessMsgACK brokerUp trackerC42 [] ack42).1.2
         "S" "C").
Proof.
  apply (ack_releases_one_entry brokerUp trackerC42 [] ack42 msg42).
  vm_compute. reflexivity.
Defined.

(** A publish that found the error channel closed. *)
Lemma Publish_error_origin_witness :
  ∃ txErr, await envErrClosed 0 = RecvErr txErr false.
Proof.
  destruct (Publish_error_origin envErrClosed "orders.new" "payload"
              "reading nats.PubAckFuture error channel failure" eq_refl)
    as [H|[H|(ack & _ & [H|[H|[[_ H]|[H _]]]])]]; try discriminate H.
  exact H.
Defined.

(** A subscriber started twice. *)
Lemma StartReading_only_once_witness :
  reading (StartReading envAllUp subscriber0 (forwardCB envAllUp sinkOK)
             alertNone []).1.2 = true ∧
  spawns (StartReading envAllUp subscriber0 (forwardCB envAllUp sinkOK)
            alertNone []).2 = 1.
Proof.
  destruct (StartReading_only_once envAllUp subscriber0
              (forwardCB envAllUp sinkOK) alertNone [] eq_refl)
    as (Hr & _ & Hs & _).
  split; [exact Hr|exact Hs].
Defined.

(** The ACK receiver cannot subscribe: [Start] stops after two calls. *)
Lemma Start_stops_at_first_failure_witness :
  Start envAckDown dispatcher0 sinkOK alertNone [] =
    (Some "nats: connection closed", dispatcher0,
     [EvStartEventLoop; EvSubscribeForACKs]).
Proof.
  destruct (Start_stops_at_first_failure envAckDown dispatcher0 sinkOK
              alertNone [] eq_refl) as (_ & _ & Hack & _).
  apply (Hack "nats: connection closed"); reflexivity.
Defined.

(** Three starts: an error, a success, a refusal. *)
Lemma StartMany_succeeds_at_most_once_witness :
  (StartMany threeStarts dispatcher0 []).1.1 =
    [Some "nats: connection closed"; None; Some "already started"] ∧
  started (StartMany threeStarts dispatcher0 []).1.2 =
    reading (subscriber (StartMany threeStarts dispatcher0 []).1.2).
Proof.
  split; [reflexivity|].
  apply (StartMany_succeeds_at_most_once threeStarts dispatcher0 []);
    reflexivity.
Defined.

(** Messages 42 and 43 delivered, with a nil message between them. *)
Lemma reader_pipeline_order_witness :
  ∃ added,
    (readerGoroutine (forwardCB envAllUp sinkOK) alertNone deliveries
       "context canceled" []).1 = [] ++ added ∧
    Forwarded [msg42; msg43] added.
Proof.
  apply (reader_pipeline_order envAllUp sinkOK alertNone deliveries
           "context canceled" []).
  reflexivity.
Defined.

(** The record the forward callback submits for message 42, handled with
    nobody listening. *)
Lemma dispatcher_tasks_never_call_back_witness :
  runCalledBack
    (processInflightMessage trackerC
       (ParamTask (jsInflightCtrlRecordNewMsg false msg42)) false) = [] ∧
  runReturned
    (processInflightMessage trackerC
       (ParamTask (jsInflightCtrlRecordNewMsg false msg42)) false) = true.
Proof.
  apply (dispatcher_tasks_never_call_back envAllUp sinkOK msg42 ack42 []
           trackerC brokerUp [] (jsInflightCtrlRecordNewMsg false msg42)).
  - left. simpl. auto.
  - intros [].
Defined.

(** The whole log of the goroutine for these deliveries. *)
Example reader_log_of_deliveries :
  (readerGoroutine (forwardCB envQueueClosed sinkOK) alertNone deliveries
     "context canceled" []).2 =
    [ActNextMsg; ActForward msg42; ActAlert "queue closed";
     ActNextMsg;
     ActNextMsg; ActForward msg43; ActAlert "queue closed";
     ActNextMsg; ActAlert "context canceled";
     ActDrain; ActUnsubscribe; ActDone].
Proof. reflexivity. Qed.

End ExtraScenarios.
